(** * go-mongo: the connection facade of [driver/driver.go]

    The package wraps the MongoDB Go driver behind one [Client] object.
    The driver and the server behind it are an external collaborator: they
    are kept abstract here, as an interface ([DriverTypes], [Driver]) whose
    operations act on an opaque [World].  The facade itself is embedded as
    functions in a small state monad with a panic outcome; every call that
    crosses into the driver's network layer is appended to a log, so that
    statements about how often the driver is called can be written down. *)

From Stdlib Require Import String List Bool Arith Lia.
Import ListNotations.
Local Open Scope string_scope.
Local Open Scope list_scope.

(** ** The driver interface *)

(** The types the driver exports.  A Go pointer to one of them is an
    [option]: [None] is the nil pointer.  The [*Options] types stand for the
    option pointers the facade passes through untouched. *)
Class DriverTypes : Type := {
  World : Type;
  MongoClient : Type;
  MongoDatabase : Type;
  MongoCollection : Type;
  SingleResult : Type;
  Cursor : Type;
  InsertOneResult : Type;
  UpdateResult : Type;
  DeleteResult : Type;
  FindOptions : Type;
  InsertOneOptions : Type;
  InsertManyOptions : Type;
  UpdateOptions : Type;
  DeleteOptions : Type;
  ReplaceOptions : Type;
  Document : Type;
  DriverError : Type
}.

Section Values.
Context {T : DriverTypes}.

(** Go's [error]: nil is [None : option error].  [errors_New] is
    [errors.New], the only error the facade builds itself. *)
Inductive error : Type :=
| errors_New (msg : string)
| driver_error (e : DriverError).

(** Go's [interface{}] / [any], as far as the facade can tell values
    apart: nil, a caller's value, or an error stored in the interface. *)
Inductive any : Type :=
| any_nil
| any_value (d : Document)
| any_error (e : error).

(** One entry of the log per call into the driver that does I/O. *)
Inductive Call : Type :=
| CallConnect (uri : string)
| CallDisconnect (h : MongoClient)
| CallPing (h : MongoClient)
| CallFindOne (c : MongoCollection) (filter : any)
| CallFind (c : MongoCollection) (filter : any) (o : FindOptions)
| CallInsertOne (c : MongoCollection) (object : any) (o : InsertOneOptions)
| CallUpdateOne (c : MongoCollection) (filter update : any) (o : UpdateOptions)
| CallDeleteOne (c : MongoCollection) (filter : any) (o : DeleteOptions)
| CallDeleteMany (c : MongoCollection) (filter : any) (o : DeleteOptions)
| CallReplaceOne (c : MongoCollection) (filter replacement : any) (o : ReplaceOptions).
End Values.

(** The operations of the driver the facade calls.  [mongo_Connect] is
    [mongo.Connect] applied to [options.Client().ApplyURI(uri)]; the ten
    second deadline of its context is part of the opaque outcome.
    [client_Database] and [database_Collection] only build handles. *)
Class Driver {T : DriverTypes} : Type := {
  mongo_Connect : string -> World -> (option MongoClient * option DriverError) * World;
  client_Disconnect : MongoClient -> World -> option DriverError * World;
  client_Ping : MongoClient -> World -> option DriverError * World;
  client_Database : MongoClient -> string -> MongoDatabase;
  database_Collection : MongoDatabase -> string -> MongoCollection;
  collection_FindOne : MongoCollection -> any -> World -> option SingleResult * World;
  collection_Find :
    MongoCollection -> any -> FindOptions -> World ->
    (option Cursor * option DriverError) * World;
  collection_InsertOne :
    MongoCollection -> any -> InsertOneOptions -> World ->
    (option InsertOneResult * option DriverError) * World;
  collection_UpdateOne :
    MongoCollection -> any -> any -> UpdateOptions -> World ->
    (option UpdateResult * option DriverError) * World;
  collection_DeleteOne :
    MongoCollection -> any -> DeleteOptions -> World ->
    (option DeleteResult * option DriverError) * World;
  collection_DeleteMany :
    MongoCollection -> any -> DeleteOptions -> World ->
    (option DeleteResult * option DriverError) * World;
  collection_ReplaceOne :
    MongoCollection -> any -> any -> ReplaceOptions -> World ->
    (option UpdateResult * option DriverError) * World
}.

(** ** The facade *)

Section Facade.
Context {T : DriverTypes} {D : Driver}.

Record Credentials : Type := {
  username : string;
  password : string
}.

Record Client : Type := {
  cl : option MongoClient;
  cr : option Credentials;
  db : option MongoDatabase;
  co : option MongoCollection;
  u : string
}.

Definition NewClient (_username _password _url : string) : Client :=
  {| cl := None;
     cr := Some {| username := _username; password := _password |};
     db := None;
     co := None;
     u := _url |}.

(** *** Execution state and monad *)

Record State : Type := {
  client : Client;
  world : World;
  calls : list Call
}.

Inductive Result (A : Type) : Type :=
| Returned (a : A) (s : State)
| Panicked (s : State).
Arguments Returned {A} a s.
Arguments Panicked {A} s.

Definition M (A : Type) : Type := State -> Result A.

Definition ret {A} (a : A) : M A := fun s => Returned a s.

Definition bind {A B} (m : M A) (f : A -> M B) : M B :=
  fun s =>
    match m s with
    | Returned a s' => f a s'
    | Panicked s' => Panicked s'
    end.

Definition result_of {A} (r : Result A) : option A :=
  match r with
  | Returned a _ => Some a
  | Panicked _ => None
  end.

Definition state_of {A} (r : Result A) : State :=
  match r with
  | Returned _ s => s
  | Panicked s => s
  end.

(** Reading the receiver [c]. *)
Definition this : M Client := fun s => Returned (client s) s.

(** Following a pointer: a nil pointer is a run-time panic.  A method
    called through a nil reference to a driver object is modelled the same
    way: each driver method used here reads its receiver's fields
    before doing anything else. *)
Definition deref {A} (p : option A) : M A :=
  fun s =>
    match p with
    | Some a => Returned a s
    | None => Panicked s
    end.

(** The state after a driver call [ev] that left the world as [w]. *)
Definition logged (s : State) (ev : Call) (w : World) : State :=
  {| client := client s; world := w; calls := calls s ++ [ev] |}.

Definition with_client (s : State) (c : Client) : State :=
  {| client := c; world := world s; calls := calls s |}.

Definition store (f : Client -> Client) : M unit :=
  fun s => Returned tt (with_client s (f (client s))).

Definition set_cl (h : option MongoClient) (c : Client) : Client :=
  {| cl := h; cr := cr c; db := db c; co := co c; u := u c |}.

Definition set_db (d : option MongoDatabase) (c : Client) : Client :=
  {| cl := cl c; cr := cr c; db := d; co := co c; u := u c |}.

Definition set_co (k : option MongoCollection) (c : Client) : Client :=
  {| cl := cl c; cr := cr c; db := db c; co := k; u := u c |}.

(** A call into the driver: logged, and run on the world. *)
Definition invoke {A} (ev : Call) (op : World -> A * World) : M A :=
  fun s => Returned (fst (op (world s))) (logged s ev (snd (op (world s)))).
End Facade.

Arguments Returned {T A} a s.
Arguments Panicked {T A} s.

Declare Scope go_scope.
Delimit Scope go_scope with go.
Notation "x <- m ;; k" := (bind m (fun x => k))
  (at level 61, m at next level, right associativity) : go_scope.
Notation "m ;;; k" := (bind m (fun _ => k))
  (at level 61, right associativity) : go_scope.

Section Methods.
Context {T : DriverTypes} {D : Driver}.
Local Open Scope go_scope.

(** The string [Connect] hands to [ApplyURI], concatenated in the order
    the source does it. *)
Definition connection_string (k : Credentials) (url : string) : string :=
  ((("mongodb+srv://" ++ username k) ++ ":") ++ password k) ++ url.

(** [c.cl, err = mongo.Connect(...)]: the handle is stored first, the
    error looked at afterwards. *)
Definition Connect : M (option error) :=
  c <- this ;;
  k <- deref (cr c) ;;
  r <- invoke (CallConnect (connection_string k (u c)))
              (mongo_Connect (connection_string k (u c))) ;;
  store (set_cl (fst r)) ;;;
  match snd r with
  | Some e => ret (Some (driver_error e))
  | None => ret None
  end.

Definition Disconnect : M (bool * option error) :=
  c <- this ;;
  h <- deref (cl c) ;;
  err <- invoke (CallDisconnect h) (client_Disconnect h) ;;
  match err with
  | Some e => ret (false, Some (driver_error e))
  | None => ret (true, None)
  end.

Definition Ping : M (option error) :=
  c <- this ;;
  h <- deref (cl c) ;;
  err <- invoke (CallPing h) (client_Ping h) ;;
  match err with
  | Some _ =>
      err <- Connect ;;
      match err with
      | Some e => ret (Some e)
      | None => ret err
      end
  | None => ret None
  end.

Definition SetDatabase (db_name : string) : M unit :=
  c <- this ;;
  h <- deref (cl c) ;;
  store (set_db (Some (client_Database h db_name))).

Definition SetCollection (cl_name : string) : M (bool * option error) :=
  c <- this ;;
  match db c with
  | None =>
      ret (false, Some (errors_New "please set a database before setting a collection"))
  | Some d =>
      store (set_co (Some (database_Collection d cl_name))) ;;;
      ret (true, None)
  end.

Definition FindOne (filter : any) : M (option SingleResult) :=
  err <- Ping ;;
  match err with
  | Some _ => ret None
  | None =>
      c <- this ;;
      k <- deref (co c) ;;
      invoke (CallFindOne k filter) (collection_FindOne k filter)
  end.

Definition FindMany (filter : any) (options : FindOptions) : M (option Cursor) :=
  err <- Ping ;;
  match err with
  | Some _ => ret None
  | None =>
      c <- this ;;
      k <- deref (co c) ;;
      r <- invoke (CallFind k filter options) (collection_Find k filter options) ;;
      match snd r with
      | Some _ => ret None
      | None => ret (fst r)
      end
  end.

Definition InsertOne (object : any) (options : InsertOneOptions) : M any :=
  err <- Ping ;;
  match err with
  | Some _ => ret any_nil
  | None =>
      c <- this ;;
      k <- deref (co c) ;;
      r <- invoke (CallInsertOne k object options)
                  (collection_InsertOne k object options) ;;
      match snd r with
      | Some _ =>
          c <- this ;;
          k <- deref (co c) ;;
          r <- invoke (CallInsertOne k object options)
                      (collection_InsertOne k object options) ;;
          match snd r with
          | Some e => ret (any_error (driver_error e))
          | None => ret object
          end
      | None => ret object
      end
  end.

Definition InsertMany (objects : list any) (options : InsertManyOptions) : M any :=
  err <- Ping ;;
  match err with
  | Some _ => ret any_nil
  | None => ret any_nil
  end.

Definition UpdateOne (filter update : any) (options : UpdateOptions)
  : M (option SingleResult) :=
  err <- Ping ;;
  match err with
  | Some _ => ret None
  | None =>
      c <- this ;;
      k <- deref (co c) ;;
      r <- invoke (CallUpdateOne k filter update options)
                  (collection_UpdateOne k filter update options) ;;
      match snd r with
      | Some _ =>
          c <- this ;;
          k <- deref (co c) ;;
          r <- invoke (CallUpdateOne k filter update options)
                      (collection_UpdateOne k filter update options) ;;
          match snd r with
          | Some _ => ret None
          | None => FindOne filter
          end
      | None => FindOne filter
      end
  end.

Definition UpdateMany (filter updates : any) (options : UpdateOptions) : M any :=
  err <- Ping ;;
  match err with
  | Some _ => ret any_nil
  | None => ret any_nil
  end.

Definition RemoveOne (filter : any) (options : DeleteOptions) : M bool :=
  err <- Ping ;;
  match err with
  | Some _ => ret false
  | None =>
      c <- this ;;
      k <- deref (co c) ;;
      r <- invoke (CallDeleteOne k filter options)
                  (collection_DeleteOne k filter options) ;;
      match snd r with
      | Some _ =>
          c <- this ;;
          k <- deref (co c) ;;
          r <- invoke (CallDeleteOne k filter options)
                      (collection_DeleteOne k filter options) ;;
          match snd r with
          | Some _ => ret false
          | None => ret true
          end
      | None => ret true
      end
  end.

Definition RemoveMany (filter : any) (options : DeleteOptions) : M bool :=
  err <- Ping ;;
  match err with
  | Some _ => ret false
  | None =>
      c <- this ;;
      k <- deref (co c) ;;
      r <- invoke (CallDeleteMany k filter options)
                  (collection_DeleteMany k filter options) ;;
      match snd r with
      | Some _ =>
          c <- this ;;
          k <- deref (co c) ;;
          r <- invoke (CallDeleteMany k filter options)
                      (collection_DeleteMany k filter options) ;;
          match snd r with
          | Some _ => ret false
          | None => ret true
          end
      | None => ret true
      end
  end.

Definition ReplaceOne (filter replacement : any) (options : ReplaceOptions)
  : M (option SingleResult) :=
  err <- Ping ;;
  match err with
  | Some _ => ret None
  | None =>
      c <- this ;;
      k <- deref (co c) ;;
      r <- invoke (CallReplaceOne k filter replacement options)
                  (collection_ReplaceOne k filter replacement options) ;;
      match snd r with
      | Some _ =>
          c <- this ;;
          k <- deref (co c) ;;
          r <- invoke (CallReplaceOne k filter replacement options)
                      (collection_ReplaceOne k filter replacement options) ;;
          match snd r with
          | Some _ => ret None
          | None => FindOne filter
          end
      | None => FindOne filter
      end
  end.
End Methods.

(** ** Sessions: what a caller can do with a client *)

Section Sessions.
Context {T : DriverTypes} {D : Driver}.
Local Open Scope go_scope.

(** The exported methods, with their arguments. *)
Inductive Op : Type :=
| OpConnect
| OpDisconnect
| OpPing
| OpSetDatabase (db_name : string)
| OpSetCollection (cl_name : string)
| OpFindOne (filter : any)
| OpFindMany (filter : any) (options : FindOptions)
| OpInsertOne (object : any) (options : InsertOneOptions)
| OpInsertMany (objects : list any) (options : InsertManyOptions)
| OpUpdateOne (filter update : any) (options : UpdateOptions)
| OpUpdateMany (filter updates : any) (options : UpdateOptions)
| OpRemoveOne (filter : any) (options : DeleteOptions)
| OpRemoveMany (filter : any) (options : DeleteOptions)
| OpReplaceOne (filter replacement : any) (options : ReplaceOptions).

Definition discard {A} (m : M A) : M unit := m ;;; ret tt.

Definition run_op (o : Op) : M unit :=
  match o with
  | OpConnect => discard Connect
  | OpDisconnect => discard Disconnect
  | OpPing => discard Ping
  | OpSetDatabase n => SetDatabase n
  | OpSetCollection n => discard (SetCollection n)
  | OpFindOne f => discard (FindOne f)
  | OpFindMany f o => discard (FindMany f o)
  | OpInsertOne x o => discard (InsertOne x o)
  | OpInsertMany xs o => discard (InsertMany xs o)
  | OpUpdateOne f x o => discard (UpdateOne f x o)
  | OpUpdateMany f x o => discard (UpdateMany f x o)
  | OpRemoveOne f o => discard (RemoveOne f o)
  | OpRemoveMany f o => discard (RemoveMany f o)
  | OpReplaceOne f x o => discard (ReplaceOne f x o)
  end.

(** A sequence of calls on one client; a panic ends it. *)
Fixpoint run_ops (os : list Op) : M unit :=
  match os with
  | [] => ret tt
  | o :: os' => run_op o ;;; run_ops os'
  end.

Definition is_SetDatabase (o : Op) : bool :=
  match o with
  | OpSetDatabase _ => true
  | _ => false
  end.

(** The state a program starts in after [NewClient]. *)
Definition start (c : Client) (w : World) : State :=
  {| client := c; world := w; calls := [] |}.

(** The state [Connect] leaves behind when the client has credentials:
    one driver call, and the handle it gave stored in [cl]. *)
Definition connected (s : State) (k : Credentials) : State :=
  let uri := connection_string k (u (client s)) in
  let r := mongo_Connect uri (world s) in
  with_client (logged s (CallConnect uri) (snd r)) (set_cl (fst (fst r)) (client s)).

(** The calls a run added to the log. *)
Definition emitted {A} (m : M A) (s : State) : list Call :=
  skipn (length (calls s)) (calls (state_of (m s))).

Definition is_insert_or_update (ev : Call) : bool :=
  match ev with
  | CallInsertOne _ _ _ => true
  | CallUpdateOne _ _ _ _ => true
  | _ => false
  end.


Definition is_connect (ev : Call) : bool :=
  match ev with
  | CallConnect _ => true
  | _ => false
  end.

Definition is_ping (ev : Call) : bool :=
  match ev with
  | CallPing _ => true
  | _ => false
  end.

(** A property of states that a computation keeps, wherever it stops. *)
Definition preserves (P : State -> Prop) {A} (m : M A) : Prop :=
  forall s, P s -> P (state_of (m s)).

(** No database and no collection selected. *)
Definition unselected (s : State) : Prop :=
  db (client s) = None /\ co (client s) = None.




(** A delete that is tried, and tried once more when it fails: does one
    of the two attempts end without error? *)
Definition attempt_twice {R} (op : World -> (R * option DriverError) * World)
  (w : World) : bool :=
  match snd (fst (op w)) with
  | None => true
  | Some _ =>
      match snd (fst (op (snd (op w)))) with
      | None => true
      | Some _ => false
      end
  end.
End Sessions.

(** ** A scripted driver

    A driver whose network is a script: every call that does I/O consumes
    the next entry, [true] for success and [false] for an error; an empty
    script means success.  Handles are the names they were made from. *)

Module Script.
Definition next (w : list bool) : bool * list bool :=
  match w with
  | [] => (true, [])
  | b :: w' => (b, w')
  end.

#[export] Instance types : DriverTypes := {|
  World := list bool;
  MongoClient := string;
  MongoDatabase := string;
  MongoCollection := string * string;
  SingleResult := bool;
  Cursor := unit;
  InsertOneResult := unit;
  UpdateResult := unit;
  DeleteResult := unit;
  FindOptions := unit;
  InsertOneOptions := unit;
  InsertManyOptions := unit;
  UpdateOptions := unit;
  DeleteOptions := unit;
  ReplaceOptions := unit;
  Document := nat;
  DriverError := string
|}.

Definition io {R} (what : string) (r : R) (w : list bool)
  : (option R * option string) * list bool :=
  let (ok, w') := next w in
  if ok then ((Some r, None), w') else ((None, Some what), w').

Definition io_err (what : string) (w : list bool) : option string * list bool :=
  let (ok, w') := next w in
  if ok then (None, w') else (Some what, w').

#[export] Instance driver : Driver := {|
  mongo_Connect := fun uri => @io string "connect" uri;
  client_Disconnect := fun _ => io_err "disconnect";
  client_Ping := fun _ => io_err "ping";
  client_Database := fun _ name => name;
  database_Collection := fun d name => (d, name);
  collection_FindOne := fun _ _ w => let (ok, w') := next w in (Some ok, w');
  collection_Find := fun _ _ _ => io "find" tt;
  collection_InsertOne := fun _ _ _ => io "insert" tt;
  collection_UpdateOne := fun _ _ _ _ => io "update" tt;
  collection_DeleteOne := fun _ _ _ => io "delete" tt;
  collection_DeleteMany := fun _ _ _ => io "delete" tt;
  collection_ReplaceOne := fun _ _ _ _ => io "replace" tt
|}.

(** A caller's document. *)
Definition doc (n : nat) : @any types := @any_value types n.

(** A client fresh from [NewClient], and one that went through Connect
    only. *)
Definition unconnected : Client := NewClient "u" "p" "@cluster0.example.net/test".

Definition no_collection : Client :=
  {| cl := Some "mongodb+srv://u:p@h/test";
     cr := Some {| username := "u"; password := "p" |};
     db := None;
     co := None;
     u := "@h/test" |}.

(** A client that went through Connect, SetDatabase and SetCollection. *)
Definition ready : Client :=
  {| cl := Some "mongodb+srv://u:p@h/test";
     cr := Some {| username := "u"; password := "p" |};
     db := Some "shop";
     co := Some ("shop", "items");
     u := "@h/test" |}.

(** The state after a ping through [ready]'s handle that left the
    script [w]. *)
Definition pinged (s : @State types) (w : list bool) : @State types :=
  @logged types s (@CallPing types "mongodb+srv://u:p@h/test") w.
End Script.

(** ** Driver operations and footprints *)

Section Footprints.
Context {T : DriverTypes} {D : Driver}.

(** The driver operation behind a logged call. *)
Inductive Kind : Type :=
| KConnect | KDisconnect | KPing | KFindOne | KFind
| KInsertOne | KUpdateOne | KDeleteOne | KDeleteMany | KReplaceOne.

Definition kind_of (ev : Call) : Kind :=
  match ev with
  | CallConnect _ => KConnect
  | CallDisconnect _ => KDisconnect
  | CallPing _ => KPing
  | CallFindOne _ _ => KFindOne
  | CallFind _ _ _ => KFind
  | CallInsertOne _ _ _ => KInsertOne
  | CallUpdateOne _ _ _ _ => KUpdateOne
  | CallDeleteOne _ _ _ => KDeleteOne
  | CallDeleteMany _ _ _ => KDeleteMany
  | CallReplaceOne _ _ _ _ => KReplaceOne
  end.

Definition Kind_eqb (a b : Kind) : bool :=
  match a, b with
  | KConnect, KConnect | KDisconnect, KDisconnect | KPing, KPing
  | KFindOne, KFindOne | KFind, KFind | KInsertOne, KInsertOne
  | KUpdateOne, KUpdateOne | KDeleteOne, KDeleteOne
  | KDeleteMany, KDeleteMany | KReplaceOne, KReplaceOne => true
  | _, _ => false
  end.

Definition uses (ks : list Kind) (ev : Call) : bool :=
  existsb (Kind_eqb (kind_of ev)) ks.

(** The driver operations each exported method has in its body, the
    methods it calls included. *)
Definition footprint (o : Op) : list Kind :=
  match o with
  | OpConnect => [KConnect]
  | OpDisconnect => [KDisconnect]
  | OpPing => [KPing; KConnect]
  | OpSetDatabase _ => []
  | OpSetCollection _ => []
  | OpFindOne _ => [KPing; KConnect; KFindOne]
  | OpFindMany _ _ => [KPing; KConnect; KFind]
  | OpInsertOne _ _ => [KPing; KConnect; KInsertOne]
  | OpInsertMany _ _ => [KPing; KConnect]
  | OpUpdateOne _ _ _ => [KPing; KConnect; KUpdateOne; KFindOne]
  | OpUpdateMany _ _ _ => [KPing; KConnect]
  | OpRemoveOne _ _ => [KPing; KConnect; KDeleteOne]
  | OpRemoveMany _ _ => [KPing; KConnect; KDeleteMany]
  | OpReplaceOne _ _ _ => [KPing; KConnect; KReplaceOne; KFindOne]
  end.

(** A driver call that writes to a collection. *)
Definition is_mutation (ev : Call) : bool :=
  uses [KInsertOne; KUpdateOne; KDeleteOne; KDeleteMany; KReplaceOne] ev.

Definition is_query (ev : Call) : bool := uses [KFindOne; KFind] ev.

Definition is_disconnect (ev : Call) : bool := uses [KDisconnect] ev.

(** The methods whose body holds a writing driver call. *)
Definition mutates (o : Op) : bool :=
  match o with
  | OpInsertOne _ _ | OpUpdateOne _ _ _ | OpRemoveOne _ _
  | OpRemoveMany _ _ | OpReplaceOne _ _ _ => true
  | _ => false
  end.

Definition is_Disconnect (o : Op) : bool :=
  match o with
  | OpDisconnect => true
  | _ => false
  end.

Definition is_selection (o : Op) : bool :=
  match o with
  | OpSetDatabase _ | OpSetCollection _ => true
  | _ => false
  end.

(** A computation only appends to the log, and what it appends passes
    [Q]. *)
Definition only_calls (Q : Call -> bool) {A} (m : M A) : Prop :=
  forall s, exists evs,
    calls (state_of (m s)) = calls s ++ evs /\ forallb Q evs = true.

(** A computation only appends to the log, at most [n] calls that pass
    [Q]. *)
Definition emits_at_most (Q : Call -> bool) (n : nat) {A} (m : M A) : Prop :=
  forall s, exists evs,
    calls (state_of (m s)) = calls s ++ evs /\ length (filter Q evs) <= n.

(** Every method but [Connect] and [SetCollection] starts by going through
    the handle. *)
Definition needs_handle (o : Op) : bool :=
  match o with
  | OpConnect | OpSetCollection _ => false
  | _ => true
  end.
(** The handle is as at the start as long as no connect was logged. *)
Definition handle_tracked (s0 s : State) : Prop :=
  exists evs,
    calls s = calls s0 ++ evs /\
    (forallb (fun ev => negb (is_connect ev)) evs = true ->
     cl (client s) = cl (client s0)).

(** A logged call on a collection goes to [col]; calls on the client
    handle pass. *)
Definition targets (col : MongoCollection) (ev : Call) : Prop :=
  match ev with
  | CallConnect _ | CallDisconnect _ | CallPing _ => True
  | CallFindOne c _ | CallFind c _ _ | CallInsertOne c _ _
  | CallUpdateOne c _ _ _ | CallDeleteOne c _ _ | CallDeleteMany c _ _
  | CallReplaceOne c _ _ _ => c = col
  end.

(** Started with [col] selected, a computation keeps it selected and
    sends every collection call to it. *)
Definition on_collection (col : MongoCollection) {A} (m : M A) : Prop :=
  forall s,
    co (client s) = Some col ->
    co (client (state_of (m s))) = Some col /\
    exists evs, calls (state_of (m s)) = calls s ++ evs /\ Forall (targets col) evs.

Definition is_SetCollection (o : Op) : bool :=
  match o with
  | OpSetCollection _ => true
  | _ => false
  end.

(** The methods that call [Ping] at most once. *)
Definition pings_once (o : Op) : bool :=
  match o with
  | OpUpdateOne _ _ _ | OpReplaceOne _ _ _ => false
  | _ => true
  end.

(** In the world of [st] the probe through the client's handle succeeds,
    and neither the probe nor the query for [filter] on [col] changes the
    world. *)
Definition reads_are_stable (col : MongoCollection) (filter : any) (st : State)
  : Prop :=
  exists h,
    cl (client st) = Some h /\
    client_Ping h (world st) = (None, world st) /\
    snd (collection_FindOne col filter (world st)) = world st.

End Footprints.

(** * Properties *)

Section Runs.
Context {T : DriverTypes} {D : Driver}.
Local Open Scope go_scope.

Lemma skipn_length_app {A} (l l' : list A) : skipn (length l) (l ++ l') = l'.
Proof. induction l as [|a l IH]; simpl; auto. Qed.

Lemma emitted_extends {A} (m : M A) (s : State) (evs : list Call) :
  calls (state_of (m s)) = calls s ++ evs -> emitted m s = evs.
Proof. unfold emitted; intros ->; apply skipn_length_app. Qed.

(** *** Connect *)

Lemma Connect_run (s : State) (k : Credentials) :
  cr (client s) = Some k ->
  Connect s =
    Returned
      (option_map driver_error
         (snd (fst (mongo_Connect (connection_string k (u (client s))) (world s)))))
      (connected s k).
Proof.
  intros Hk. unfold Connect, bind, this, deref, store, invoke, ret, connected.
  rewrite Hk. simpl.
  destruct (mongo_Connect _ _) as [[h' [e|]] w']; reflexivity.
Qed.

Lemma Connect_without_credentials (s : State) :
  cr (client s) = None -> Connect s = Panicked s.
Proof.
  intros Hk. unfold Connect, bind, this, deref. now rewrite Hk.
Qed.

(** *** Ping *)

Lemma Ping_without_handle (s : State) :
  cl (client s) = None -> Ping s = Panicked s.
Proof.
  intros Hh. unfold Ping, bind, this, deref. now rewrite Hh.
Qed.

Lemma Ping_alive (s : State) (h : MongoClient) :
  cl (client s) = Some h ->
  fst (client_Ping h (world s)) = None ->
  Ping s = Returned None (logged s (CallPing h) (snd (client_Ping h (world s)))).
Proof.
  intros Hh Hp. unfold Ping, bind, this, deref, invoke, ret.
  rewrite Hh. simpl. now rewrite Hp.
Qed.

Lemma Ping_reconnect (s : State) (h : MongoClient) :
  cl (client s) = Some h ->
  fst (client_Ping h (world s)) <> None ->
  Ping s = Connect (logged s (CallPing h) (snd (client_Ping h (world s)))).
Proof.
  intros Hh Hp. unfold Ping, bind, this, deref, invoke, ret.
  rewrite Hh. simpl.
  destruct (fst (client_Ping h (world s))) as [e|]; [|congruence].
  destruct (Connect _) as [[e'|] s'|s']; reflexivity.
Qed.

(** [Ping] leaves everything of the client but the handle alone. *)
Lemma Ping_frame (s : State) :
  let c' := client (state_of (Ping s)) in
  cr c' = cr (client s) /\ db c' = db (client s) /\
  co c' = co (client s) /\ u c' = u (client s).
Proof.
  destruct (cl (client s)) as [h|] eqn:Hh.
  2:{ rewrite Ping_without_handle by assumption. simpl. auto. }
  destruct (fst (client_Ping h (world s))) as [e|] eqn:Hp.
  - rewrite (Ping_reconnect s h Hh) by congruence.
    set (s1 := logged s _ _).
    destruct (cr (client s)) as [k|] eqn:Hk.
    + rewrite (Connect_run s1 k) by exact Hk. simpl. auto.
    + rewrite Connect_without_credentials by exact Hk. simpl. auto.
  - rewrite (Ping_alive s h Hh Hp). simpl. auto.
Qed.

Lemma Ping_returns (s : State) (h : MongoClient) (k : Credentials) :
  cl (client s) = Some h -> cr (client s) = Some k ->
  exists e s', Ping s = Returned e s'.
Proof.
  intros Hh Hk.
  destruct (fst (client_Ping h (world s))) as [e|] eqn:Hp.
  - rewrite (Ping_reconnect s h Hh) by congruence.
    rewrite (Connect_run _ k) by exact Hk. eauto.
  - rewrite (Ping_alive s h Hh Hp). eauto.
Qed.
End Runs.

Section PingClaims.
Context {T : DriverTypes} {D : Driver}.



(** C10. [Connect] stores whatever handle the driver returned before it
    looks at the error: after a [Connect] that returns an error the
    client's handle is the one that came with the error, whatever it held
    before; and a [Ping] whose reconnect fails leaves that handle in place
    as well. *)
Theorem Connect_overwrites_handle (s : State) (k : Credentials) :
  cr (client s) = Some k ->
  let uri := connection_string k (u (client s)) in
  (forall e,
     result_of (Connect s) = Some (Some e) ->
     cl (client (state_of (Connect s))) = fst (fst (mongo_Connect uri (world s))) /\
     exists ce,
       snd (fst (mongo_Connect uri (world s))) = Some ce /\ e = driver_error ce) /\
  (forall ce,
     snd (fst (mongo_Connect uri (world s))) = Some ce ->
     result_of (Connect s) = Some (Some (driver_error ce))) /\
  (forall h ce,
     cl (client s) = Some h ->
     fst (client_Ping h (world s)) <> None ->
     let conn := mongo_Connect uri (snd (client_Ping h (world s))) in
     snd (fst conn) = Some ce ->
     result_of (Ping s) = Some (Some (driver_error ce)) /\
     cl (client (state_of (Ping s))) = fst (fst conn)).
Proof.
  intros Hk uri. split; [|split].
  - intros e He. rewrite (Connect_run s k Hk) in *. simpl in *.
    fold uri in He. split; [reflexivity|].
    destruct (snd (fst (mongo_Connect uri (world s)))) as [ce|]; simpl in He.
    + exists ce. split; congruence.
    + congruence.
  - intros ce Hce. rewrite (Connect_run s k Hk). simpl. fold uri. now rewrite Hce.
  - intros h ce Hh Hp conn Hce.
    rewrite (Ping_reconnect s h Hh Hp).
    rewrite (Connect_run (logged s (CallPing h) (snd (client_Ping h (world s)))) k Hk).
    simpl. fold uri. fold conn. now rewrite Hce.
Qed.
End PingClaims.

Section CrudClaims.
Context {T : DriverTypes} {D : Driver}.

Lemma Ping_keeps_collection (s s1 : State) (e : option error) :
  Ping s = Returned e s1 -> co (client s1) = co (client s).
Proof.
  intros HP. pose proof (Ping_frame s) as HF. rewrite HP in HF.
  simpl in HF. tauto.
Qed.

Ltac after_ping HP Hco :=
  unfold bind; rewrite HP; unfold this, deref, bind; simpl;
  try (rewrite Hco; unfold invoke, ret; simpl).

(** C3. [InsertOne] pings first.  When [Ping] returns an error it returns
    nil and the driver is not called again.  Otherwise, on a client with a
    collection, it calls the driver's insert; a failed insert is repeated
    once and never more.  It returns the document it was given when the
    first or the repeated insert succeeds, and the error of the repeated
    insert when both fail. *)
Theorem InsertOne_retries_once (object : any) (options : InsertOneOptions) (s : State) :
  (forall e s1,
     Ping s = Returned (Some e) s1 ->
     InsertOne object options s = Returned any_nil s1) /\
  (forall s1 col,
     Ping s = Returned None s1 ->
     co (client s) = Some col ->
     let ev := CallInsertOne col object options in
     let first := collection_InsertOne col object options (world s1) in
     let s2 := logged s1 ev (snd first) in
     let second := collection_InsertOne col object options (snd first) in
     let s3 := logged s2 ev (snd second) in
     (snd (fst first) = None ->
        InsertOne object options s = Returned object s2) /\
     (snd (fst first) <> None -> snd (fst second) = None ->
        InsertOne object options s = Returned object s3) /\
     (forall e2, snd (fst first) <> None -> snd (fst second) = Some e2 ->
        InsertOne object options s = Returned (any_error (driver_error e2)) s3)).
Proof.
  split.
  - intros e s1 HP. unfold InsertOne. after_ping HP HP. reflexivity.
  - intros s1 col HP Hco ev first s2 second s3.
    assert (Hco1 : co (client s1) = Some col)
      by (rewrite (Ping_keeps_collection s s1 None HP); exact Hco).
    split; [|split].
    + intros H1. unfold InsertOne. after_ping HP Hco1.
      fold first. now rewrite H1.
    + intros H1 H2. unfold InsertOne. after_ping HP Hco1.
      fold first. destruct (snd (fst first)) as [e1|]; [|congruence].
      unfold this, deref, bind; simpl. rewrite Hco1. simpl.
      fold second. now rewrite H2.
    + intros e2 H1 H2. unfold InsertOne. after_ping HP Hco1.
      fold first. destruct (snd (fst first)) as [e1|]; [|congruence].
      unfold this, deref, bind; simpl. rewrite Hco1. simpl.
      fold second. now rewrite H2.
Qed.

Lemma RemoveOne_run (filter : any) (options : DeleteOptions) (s s1 : State)
  (col : MongoCollection) :
  Ping s = Returned None s1 ->
  co (client s) = Some col ->
  result_of (RemoveOne filter options s) =
    Some (attempt_twice (collection_DeleteOne col filter options) (world s1)).
Proof.
  intros HP Hco.
  assert (Hco1 : co (client s1) = Some col)
    by (rewrite (Ping_keeps_collection s s1 None HP); exact Hco).
  unfold RemoveOne, attempt_twice. after_ping HP Hco1.
  destruct (snd (fst (collection_DeleteOne col filter options (world s1)))); [|reflexivity].
  unfold this, deref, bind; simpl. rewrite Hco1. simpl.
  destruct (snd (fst (collection_DeleteOne col filter options _))); reflexivity.
Qed.

Lemma RemoveMany_run (filter : any) (options : DeleteOptions) (s s1 : State)
  (col : MongoCollection) :
  Ping s = Returned None s1 ->
  co (client s) = Some col ->
  result_of (RemoveMany filter options s) =
    Some (attempt_twice (collection_DeleteMany col filter options) (world s1)).
Proof.
  intros HP Hco.
  assert (Hco1 : co (client s1) = Some col)
    by (rewrite (Ping_keeps_collection s s1 None HP); exact Hco).
  unfold RemoveMany, attempt_twice. after_ping HP Hco1.
  destruct (snd (fst (collection_DeleteMany col filter options (world s1)))); [|reflexivity].
  unfold this, deref, bind; simpl. rewrite Hco1. simpl.
  destruct (snd (fst (collection_DeleteMany col filter options _))); reflexivity.
Qed.

(** The states [RemoveOne] ends in once [Ping] has returned nil. *)
Lemma RemoveOne_states (filter : any) (options : DeleteOptions) (s s1 : State)
  (col : MongoCollection) :
  Ping s = Returned None s1 ->
  co (client s) = Some col ->
  let ev := CallDeleteOne col filter options in
  let first := collection_DeleteOne col filter options (world s1) in
  let s2 := logged s1 ev (snd first) in
  let second := collection_DeleteOne col filter options (snd first) in
  let s3 := logged s2 ev (snd second) in
  (snd (fst first) = None -> RemoveOne filter options s = Returned true s2) /\
  (snd (fst first) <> None -> snd (fst second) = None ->
     RemoveOne filter options s = Returned true s3) /\
  (snd (fst first) <> None -> snd (fst second) <> None ->
     RemoveOne filter options s = Returned false s3).
Proof.
  intros HP Hco ev first s2 second s3.
  assert (Hco1 : co (client s1) = Some col)
    by (rewrite (Ping_keeps_collection s s1 None HP); exact Hco).
  split; [|split].
  - intros H1. unfold RemoveOne. after_ping HP Hco1. fold first. now rewrite H1.
  - intros H1 H2. unfold RemoveOne. after_ping HP Hco1.
    fold first. destruct (snd (fst first)) as [e1|]; [|congruence].
    unfold this, deref, bind; simpl. rewrite Hco1. simpl.
    fold second. now rewrite H2.
  - intros H1 H2. unfold RemoveOne. after_ping HP Hco1.
    fold first. destruct (snd (fst first)) as [e1|]; [|congruence].
    unfold this, deref, bind; simpl. rewrite Hco1. simpl.
    fold second. destruct (snd (fst second)) as [e2|]; [reflexivity|congruence].
Qed.

(** The states [RemoveMany] ends in once [Ping] has returned nil. *)
Lemma RemoveMany_states (filter : any) (options : DeleteOptions) (s s1 : State)
  (col : MongoCollection) :
  Ping s = Returned None s1 ->
  co (client s) = Some col ->
  let ev := CallDeleteMany col filter options in
  let first := collection_DeleteMany col filter options (world s1) in
  let s2 := logged s1 ev (snd first) in
  let second := collection_DeleteMany col filter options (snd first) in
  let s3 := logged s2 ev (snd second) in
  (snd (fst first) = None -> RemoveMany filter options s = Returned true s2) /\
  (snd (fst first) <> None -> snd (fst second) = None ->
     RemoveMany filter options s = Returned true s3) /\
  (snd (fst first) <> None -> snd (fst second) <> None ->
     RemoveMany filter options s = Returned false s3).
Proof.
  intros HP Hco ev first s2 second s3.
  assert (Hco1 : co (client s1) = Some col)
    by (rewrite (Ping_keeps_collection s s1 None HP); exact Hco).
  split; [|split].
  - intros H1. unfold RemoveMany. after_ping HP Hco1. fold first. now rewrite H1.
  - intros H1 H2. unfold RemoveMany. after_ping HP Hco1.
    fold first. destruct (snd (fst first)) as [e1|]; [|congruence].
    unfold this, deref, bind; simpl. rewrite Hco1. simpl.
    fold second. now rewrite H2.
  - intros H1 H2. unfold RemoveMany. after_ping HP Hco1.
    fold first. destruct (snd (fst first)) as [e1|]; [|congruence].
    unfold this, deref, bind; simpl. rewrite Hco1. simpl.
    fold second. destruct (snd (fst second)) as [e2|]; [reflexivity|congruence].
Qed.

(** C4. [RemoveOne] and [RemoveMany] return true exactly when [Ping]
    returned nil and the driver's delete, tried once and once more after a
    failure, ended without error.  They return false when [Ping] returned
    an error and false when both deletes failed: the caller gets the same
    value in the two cases.  What they do is fixed along with what they
    return: no driver call after a failed [Ping]; one delete call when the
    first attempt succeeds; two when it fails, whether the second one
    succeeds (true) or fails (false); and the world is what those calls
    left. *)
Theorem Remove_true_iff_delete_succeeds (filter : any) (options : DeleteOptions)
  (s : State) :
  (result_of (RemoveOne filter options s) = Some true <->
     exists s1 col,
       Ping s = Returned None s1 /\ co (client s) = Some col /\
       attempt_twice (collection_DeleteOne col filter options) (world s1) = true) /\
  (result_of (RemoveMany filter options s) = Some true <->
     exists s1 col,
       Ping s = Returned None s1 /\ co (client s) = Some col /\
       attempt_twice (collection_DeleteMany col filter options) (world s1) = true) /\
  (forall e s1,
     Ping s = Returned (Some e) s1 ->
     RemoveOne filter options s = Returned false s1 /\
     RemoveMany filter options s = Returned false s1) /\
  (forall s1 col,
     Ping s = Returned None s1 ->
     co (client s) = Some col ->
     (attempt_twice (collection_DeleteOne col filter options) (world s1) = false ->
        result_of (RemoveOne filter options s) = Some false) /\
     (attempt_twice (collection_DeleteMany col filter options) (world s1) = false ->
        result_of (RemoveMany filter options s) = Some false)) /\
  (forall s1 col,
     Ping s = Returned None s1 ->
     co (client s) = Some col ->
     (let ev := CallDeleteOne col filter options in
      let first := collection_DeleteOne col filter options (world s1) in
      let s2 := logged s1 ev (snd first) in
      let second := collection_DeleteOne col filter options (snd first) in
      let s3 := logged s2 ev (snd second) in
      (snd (fst first) = None -> RemoveOne filter options s = Returned true s2) /\
      (snd (fst first) <> None -> snd (fst second) = None ->
         RemoveOne filter options s = Returned true s3) /\
      (snd (fst first) <> None -> snd (fst second) <> None ->
         RemoveOne filter options s = Returned false s3)) /\
     (let ev := CallDeleteMany col filter options in
      let first := collection_DeleteMany col filter options (world s1) in
      let s2 := logged s1 ev (snd first) in
      let second := collection_DeleteMany col filter options (snd first) in
      let s3 := logged s2 ev (snd second) in
      (snd (fst first) = None -> RemoveMany filter options s = Returned true s2) /\
      (snd (fst first) <> None -> snd (fst second) = None ->
         RemoveMany filter options s = Returned true s3) /\
      (snd (fst first) <> None -> snd (fst second) <> None ->
         RemoveMany filter options s = Returned false s3))).
Proof.
  split; [|split; [|split; [|split]]].
  - split.
    + intros Hr. destruct (Ping s) as [[e|] s1|s1] eqn:HP.
      * unfold RemoveOne, bind in Hr. rewrite HP in Hr. discriminate.
      * destruct (co (client s)) as [col|] eqn:Hco.
        -- exists s1, col. rewrite (RemoveOne_run _ _ _ _ _ HP Hco) in Hr.
           repeat split; congruence.
        -- unfold RemoveOne, bind in Hr. rewrite HP in Hr.
           unfold this, deref in Hr. simpl in Hr.
           rewrite (Ping_keeps_collection s s1 None HP), Hco in Hr. discriminate.
      * unfold RemoveOne, bind in Hr. rewrite HP in Hr. discriminate.
    + intros (s1 & col & HP & Hco & Hd).
      now rewrite (RemoveOne_run _ _ _ _ _ HP Hco), Hd.
  - split.
    + intros Hr. destruct (Ping s) as [[e|] s1|s1] eqn:HP.
      * unfold RemoveMany, bind in Hr. rewrite HP in Hr. discriminate.
      * destruct (co (client s)) as [col|] eqn:Hco.
        -- exists s1, col. rewrite (RemoveMany_run _ _ _ _ _ HP Hco) in Hr.
           repeat split; congruence.
        -- unfold RemoveMany, bind in Hr. rewrite HP in Hr.
           unfold this, deref in Hr. simpl in Hr.
           rewrite (Ping_keeps_collection s s1 None HP), Hco in Hr. discriminate.
      * unfold RemoveMany, bind in Hr. rewrite HP in Hr. discriminate.
    + intros (s1 & col & HP & Hco & Hd).
      now rewrite (RemoveMany_run _ _ _ _ _ HP Hco), Hd.
  - intros e s1 HP. split.
    + unfold RemoveOne. after_ping HP HP. reflexivity.
    + unfold RemoveMany. after_ping HP HP. reflexivity.
  - intros s1 col HP Hco. split; intros Hd.
    + now rewrite (RemoveOne_run _ _ _ _ _ HP Hco), Hd.
    + now rewrite (RemoveMany_run _ _ _ _ _ HP Hco), Hd.
  - intros s1 col HP Hco. split.
    + exact (RemoveOne_states filter options s s1 col HP Hco).
    + exact (RemoveMany_states filter options s s1 col HP Hco).
Qed.

Lemma FindOne_stable_run (filter : any) (st : State) (h : MongoClient)
  (col : MongoCollection) :
  cl (client st) = Some h ->
  co (client st) = Some col ->
  client_Ping h (world st) = (None, world st) ->
  FindOne filter st =
    Returned (fst (collection_FindOne col filter (world st)))
      (logged (logged st (CallPing h) (world st)) (CallFindOne col filter)
         (snd (collection_FindOne col filter (world st)))).
Proof.
  intros Hh Hco Hp.
  assert (HP : Ping st = Returned None (logged st (CallPing h) (world st))).
  { rewrite (Ping_alive st h Hh); rewrite Hp; reflexivity. }
  unfold FindOne. after_ping HP Hco. reflexivity.
Qed.

Lemma FindOne_repeats (filter : any) (st : State) (col : MongoCollection) :
  co (client st) = Some col ->
  reads_are_stable col filter st ->
  result_of (FindOne filter st) =
    Some (fst (collection_FindOne col filter (world st))) /\
  result_of (FindOne filter (state_of (FindOne filter st))) =
    result_of (FindOne filter st).
Proof.
  intros Hco (h & Hh & Hp & Hq).
  rewrite (FindOne_stable_run filter st h col Hh Hco Hp). simpl.
  split; [reflexivity|].
  rewrite (FindOne_stable_run filter _ h col); simpl; try assumption.
  - now rewrite Hq.
  - now rewrite Hq.
Qed.

(** C5, as amended. Once [UpdateOne] (or [ReplaceOne]) got its mutation
    through, at the first attempt or at the repeated one, what it returns is
    what its own call of [FindOne] with the same filter returns, made right
    after the mutation.  A [FindOne] the caller makes after the method has
    returned gives that same value when, in the world the mutation left, the
    probe succeeds and neither the probe nor the query changes the world. *)
Theorem Update_Replace_return_FindOne (filter : any) (s s1 : State)
  (col : MongoCollection) :
  Ping s = Returned None s1 ->
  co (client s) = Some col ->
  (forall update options,
     let ev := CallUpdateOne col filter update options in
     let first := collection_UpdateOne col filter update options (world s1) in
     let s2 := logged s1 ev (snd first) in
     let second := collection_UpdateOne col filter update options (snd first) in
     let s3 := logged s2 ev (snd second) in
     (snd (fst first) = None ->
        UpdateOne filter update options s = FindOne filter s2 /\
        (reads_are_stable col filter s2 ->
           result_of (UpdateOne filter update options s) =
             Some (fst (collection_FindOne col filter (world s2))) /\
           result_of (FindOne filter (state_of (UpdateOne filter update options s))) =
             result_of (UpdateOne filter update options s))) /\
     (snd (fst first) <> None -> snd (fst second) = None ->
        UpdateOne filter update options s = FindOne filter s3 /\
        (reads_are_stable col filter s3 ->
           result_of (UpdateOne filter update options s) =
             Some (fst (collection_FindOne col filter (world s3))) /\
           result_of (FindOne filter (state_of (UpdateOne filter update options s))) =
             result_of (UpdateOne filter update options s)))) /\
  (forall replacement options,
     let ev := CallReplaceOne col filter replacement options in
     let first := collection_ReplaceOne col filter replacement options (world s1) in
     let s2 := logged s1 ev (snd first) in
     let second := collection_ReplaceOne col filter replacement options (snd first) in
     let s3 := logged s2 ev (snd second) in
     (snd (fst first) = None ->
        ReplaceOne filter replacement options s = FindOne filter s2 /\
        (reads_are_stable col filter s2 ->
           result_of (ReplaceOne filter replacement options s) =
             Some (fst (collection_FindOne col filter (world s2))) /\
           result_of (FindOne filter
                        (state_of (ReplaceOne filter replacement options s))) =
             result_of (ReplaceOne filter replacement options s))) /\
     (snd (fst first) <> None -> snd (fst second) = None ->
        ReplaceOne filter replacement options s = FindOne filter s3 /\
        (reads_are_stable col filter s3 ->
           result_of (ReplaceOne filter replacement options s) =
             Some (fst (collection_FindOne col filter (world s3))) /\
           result_of (FindOne filter
                        (state_of (ReplaceOne filter replacement options s))) =
             result_of (ReplaceOne filter replacement options s)))).
Proof.
  intros HP Hco.
  assert (Hco1 : co (client s1) = Some col)
    by (rewrite (Ping_keeps_collection s s1 None HP); exact Hco).
  split.
  - intros update options ev first s2 second s3. split.
    + intros H1.
      assert (HU : UpdateOne filter update options s = FindOne filter s2).
      { unfold UpdateOne. after_ping HP Hco1. fold first. now rewrite H1. }
      split; [exact HU|]. intros Hst. rewrite HU.
      now apply FindOne_repeats.
    + intros H1 H2.
      assert (HU : UpdateOne filter update options s = FindOne filter s3).
      { unfold UpdateOne. after_ping HP Hco1.
        fold first. destruct (snd (fst first)) as [e1|]; [|congruence].
        unfold this, deref, bind; simpl. rewrite Hco1. simpl.
        fold second. now rewrite H2. }
      split; [exact HU|]. intros Hst. rewrite HU.
      now apply FindOne_repeats.
  - intros replacement options ev first s2 second s3. split.
    + intros H1.
      assert (HU : ReplaceOne filter replacement options s = FindOne filter s2).
      { unfold ReplaceOne. after_ping HP Hco1. fold first. now rewrite H1. }
      split; [exact HU|]. intros Hst. rewrite HU.
      now apply FindOne_repeats.
    + intros H1 H2.
      assert (HU : ReplaceOne filter replacement options s = FindOne filter s3).
      { unfold ReplaceOne. after_ping HP Hco1.
        fold first. destruct (snd (fst first)) as [e1|]; [|congruence].
        unfold this, deref, bind; simpl. rewrite Hco1. simpl.
        fold second. now rewrite H2. }
      split; [exact HU|]. intros Hst. rewrite HU.
      now apply FindOne_repeats.
Qed.

Lemma Ping_only_probes (s : State) :
  forallb (fun ev => is_ping ev || is_connect ev) (emitted Ping s) = true /\
  existsb is_insert_or_update (emitted Ping s) = false.
Proof.
  destruct (cl (client s)) as [h|] eqn:Hh.
  2:{ rewrite (emitted_extends Ping s []); [split; reflexivity|].
      rewrite Ping_without_handle by assumption. simpl. now rewrite app_nil_r. }
  destruct (fst (client_Ping h (world s))) as [e|] eqn:Hp.
  - assert (Hne : fst (client_Ping h (world s)) <> None) by congruence.
    destruct (cr (client s)) as [k|] eqn:Hk.
    + rewrite (emitted_extends Ping s
                 [CallPing h; CallConnect (connection_string k (u (client s)))]);
        [split; reflexivity|].
      rewrite (Ping_reconnect s h Hh Hne).
      rewrite (Connect_run _ k) by exact Hk. simpl. now rewrite <- app_assoc.
    + rewrite (emitted_extends Ping s [CallPing h]); [split; reflexivity|].
      rewrite (Ping_reconnect s h Hh Hne).
      rewrite Connect_without_credentials by exact Hk. reflexivity.
  - rewrite (emitted_extends Ping s [CallPing h]); [split; reflexivity|].
    now rewrite (Ping_alive s h Hh Hp).
Qed.

(** C7. [InsertMany] and [UpdateMany] do what [Ping] does and nothing
    more: whatever [Ping] returns, an error or nil, they return nil, and
    the driver calls they make are those of [Ping]: pings and connects,
    never an insert or an update.  On a client with a handle and credentials they
    do return. *)
Theorem InsertMany_UpdateMany_return_nil
  (objects : list any) (options : InsertManyOptions)
  (filter updates : any) (options' : UpdateOptions) (s : State) :
  InsertMany objects options s =
    match Ping s with
    | Returned _ s1 => Returned any_nil s1
    | Panicked s1 => Panicked s1
    end /\
  UpdateMany filter updates options' s =
    match Ping s with
    | Returned _ s1 => Returned any_nil s1
    | Panicked s1 => Panicked s1
    end /\
  emitted (InsertMany objects options) s = emitted Ping s /\
  emitted (UpdateMany filter updates options') s = emitted Ping s /\
  forallb (fun ev => is_ping ev || is_connect ev) (emitted Ping s) = true /\
  existsb is_insert_or_update (emitted Ping s) = false /\
  (forall h k,
     cl (client s) = Some h -> cr (client s) = Some k ->
     result_of (InsertMany objects options s) = Some any_nil /\
     result_of (UpdateMany filter updates options' s) = Some any_nil).
Proof.
  assert (HI : InsertMany objects options s =
               match Ping s with
               | Returned _ s1 => Returned any_nil s1
               | Panicked s1 => Panicked s1
               end).
  { unfold InsertMany, bind. destruct (Ping s) as [[e|] s1|s1]; reflexivity. }
  assert (HU : UpdateMany filter updates options' s =
               match Ping s with
               | Returned _ s1 => Returned any_nil s1
               | Panicked s1 => Panicked s1
               end).
  { unfold UpdateMany, bind. destruct (Ping s) as [[e|] s1|s1]; reflexivity. }
  split; [exact HI|]. split; [exact HU|].
  split; [|split; [|split; [|split]]].
  - unfold emitted. rewrite HI. now destruct (Ping s).
  - unfold emitted. rewrite HU. now destruct (Ping s).
  - apply Ping_only_probes.
  - apply Ping_only_probes.
  - intros h k Hh Hk. rewrite HI, HU.
    destruct (Ping_returns s h k Hh Hk) as (e & s1 & ->). auto.
Qed.

(** C8. No CRUD method checks the collection reference.  On a client
    whose [co] is nil, as soon as [Ping] has returned nil each of them
    goes on to call through the nil reference and panics there, with no
    further driver call and no value returned. *)
Theorem crud_without_collection_panics (s s1 : State) :
  co (client s) = None ->
  Ping s = Returned None s1 ->
  (forall filter, FindOne filter s = Panicked s1) /\
  (forall filter options, FindMany filter options s = Panicked s1) /\
  (forall object options, InsertOne object options s = Panicked s1) /\
  (forall filter update options, UpdateOne filter update options s = Panicked s1) /\
  (forall filter options, RemoveOne filter options s = Panicked s1) /\
  (forall filter options, RemoveMany filter options s = Panicked s1) /\
  (forall filter replacement options,
     ReplaceOne filter replacement options s = Panicked s1).
Proof.
  intros Hco HP.
  assert (Hco1 : co (client s1) = None)
    by (rewrite (Ping_keeps_collection s s1 None HP); exact Hco).
  repeat split; intros.
  - unfold FindOne. after_ping HP Hco1. reflexivity.
  - unfold FindMany. after_ping HP Hco1. reflexivity.
  - unfold InsertOne. after_ping HP Hco1. reflexivity.
  - unfold UpdateOne. after_ping HP Hco1. reflexivity.
  - unfold RemoveOne. after_ping HP Hco1. reflexivity.
  - unfold RemoveMany. after_ping HP Hco1. reflexivity.
  - unfold ReplaceOne. after_ping HP Hco1. reflexivity.
Qed.
End CrudClaims.

(** ** What every method keeps *)

Section Preservation.
Context {T : DriverTypes} {D : Driver}.
Variable P : State -> Prop.

Lemma preserves_ret {A} (a : A) : preserves P (ret a).
Proof. intros s Hs. exact Hs. Qed.

Lemma preserves_this : preserves P this.
Proof. intros s Hs. exact Hs. Qed.

Lemma preserves_deref {A} (p : option A) : preserves P (deref p).
Proof. intros s Hs. unfold deref. now destruct p. Qed.

Lemma preserves_bind {A B} (m : M A) (f : A -> M B) :
  preserves P m -> (forall a, preserves P (f a)) -> preserves P (bind m f).
Proof.
  intros Hm Hf s Hs. unfold bind. specialize (Hm s Hs).
  destruct (m s) as [a s'|s']; simpl in *.
  - now apply Hf.
  - exact Hm.
Qed.

Lemma preserves_discard {A} (m : M A) : preserves P m -> preserves P (discard m).
Proof.
  intros Hm. unfold discard. apply preserves_bind; [exact Hm|].
  intros _. apply preserves_ret.
Qed.

(** Outside [SetDatabase] and [SetCollection] a method changes the state
    only through [Connect] and through driver calls that are not a
    connect. *)
Hypothesis P_logged :
  forall s ev w, is_connect ev = false -> P s -> P (logged s ev w).
Hypothesis P_Connect : preserves P Connect.

Lemma preserves_invoke {A} (ev : Call) (op : World -> A * World) :
  is_connect ev = false -> preserves P (invoke ev op).
Proof. intros Hev s Hs. unfold invoke. simpl. now apply P_logged. Qed.

Ltac preserve :=
  repeat first
    [ apply preserves_ret
    | apply preserves_this
    | apply preserves_deref
    | apply preserves_invoke; reflexivity
    | exact P_Connect
    | assumption
    | apply preserves_bind; [|intro]
    | match goal with
      | |- preserves _ (match ?x with _ => _ end) => destruct x
      end ].

Lemma preserves_Disconnect : preserves P Disconnect.
Proof. unfold Disconnect. preserve. Qed.

Lemma preserves_Ping : preserves P Ping.
Proof. unfold Ping. preserve. Qed.

Lemma preserves_FindOne filter : preserves P (FindOne filter).
Proof. pose proof preserves_Ping. unfold FindOne. preserve. Qed.

Lemma preserves_FindMany filter options : preserves P (FindMany filter options).
Proof. pose proof preserves_Ping. unfold FindMany. preserve. Qed.

Lemma preserves_InsertOne object options : preserves P (InsertOne object options).
Proof. pose proof preserves_Ping. unfold InsertOne. preserve. Qed.

Lemma preserves_InsertMany objects options : preserves P (InsertMany objects options).
Proof. pose proof preserves_Ping. unfold InsertMany. preserve. Qed.

Lemma preserves_UpdateOne filter update options :
  preserves P (UpdateOne filter update options).
Proof.
  pose proof preserves_Ping. pose proof (preserves_FindOne filter).
  unfold UpdateOne. preserve.
Qed.

Lemma preserves_UpdateMany filter updates options :
  preserves P (UpdateMany filter updates options).
Proof. pose proof preserves_Ping. unfold UpdateMany. preserve. Qed.

Lemma preserves_RemoveOne filter options : preserves P (RemoveOne filter options).
Proof. pose proof preserves_Ping. unfold RemoveOne. preserve. Qed.

Lemma preserves_RemoveMany filter options : preserves P (RemoveMany filter options).
Proof. pose proof preserves_Ping. unfold RemoveMany. preserve. Qed.

Lemma preserves_ReplaceOne filter replacement options :
  preserves P (ReplaceOne filter replacement options).
Proof.
  pose proof preserves_Ping. pose proof (preserves_FindOne filter).
  unfold ReplaceOne. preserve.
Qed.

(** A session keeps [P] when the calls that select a database or a
    collection, as far as the session makes them, keep it. *)
Lemma preserves_run_op (o : Op) :
  (forall n, o = OpSetDatabase n -> preserves P (SetDatabase n)) ->
  (forall n, o = OpSetCollection n -> preserves P (SetCollection n)) ->
  preserves P (run_op o).
Proof.
  intros Hdb Hco. destruct o; simpl;
    try (apply preserves_discard);
    auto using preserves_Disconnect, preserves_Ping, preserves_FindOne,
      preserves_FindMany, preserves_InsertOne, preserves_InsertMany,
      preserves_UpdateOne, preserves_UpdateMany, preserves_RemoveOne,
      preserves_RemoveMany, preserves_ReplaceOne.
Qed.

Lemma preserves_run_ops (allowed : Op -> bool) :
  (forall o, allowed o = true -> preserves P (run_op o)) ->
  forall os, forallb allowed os = true -> preserves P (run_ops os).
Proof.
  intros Hop os. induction os as [|o os IH]; simpl; intros Hall.
  - apply preserves_ret.
  - apply andb_true_iff in Hall. destruct Hall as [Ho Hos].
    apply preserves_bind; [now apply Hop|]. intros _. now apply IH.
Qed.
End Preservation.

(** ** Selecting a database and a collection; the connection string *)

Section SelectionClaims.
Context {T : DriverTypes} {D : Driver}.

Lemma SetDatabase_run (db_name : string) (s : State) (h : MongoClient) :
  cl (client s) = Some h ->
  SetDatabase db_name s =
    Returned tt (with_client s (set_db (Some (client_Database h db_name)) (client s))).
Proof.
  intros Hh. unfold SetDatabase, bind, this, deref, store. now rewrite Hh.
Qed.

Lemma SetDatabase_without_handle (db_name : string) (s : State) :
  cl (client s) = None -> SetDatabase db_name s = Panicked s.
Proof.
  intros Hh. unfold SetDatabase, bind, this, deref. now rewrite Hh.
Qed.

Lemma SetCollection_refused (cl_name : string) (s : State) :
  db (client s) = None ->
  SetCollection cl_name s =
    Returned
      (false, Some (errors_New "please set a database before setting a collection"))
      s.
Proof.
  intros Hd. unfold SetCollection, bind, this, ret. simpl. now rewrite Hd.
Qed.

Lemma SetCollection_run (cl_name : string) (s : State) (d : MongoDatabase) :
  db (client s) = Some d ->
  SetCollection cl_name s =
    Returned (true, None)
      (with_client s (set_co (Some (database_Collection d cl_name)) (client s))).
Proof.
  intros Hd. unfold SetCollection, bind, this, store, ret. simpl. now rewrite Hd.
Qed.

Lemma unselected_Connect : preserves unselected Connect.
Proof.
  intros s Hs. destruct (cr (client s)) as [k|] eqn:Hk.
  - rewrite (Connect_run s k Hk). exact Hs.
  - now rewrite Connect_without_credentials.
Qed.

Lemma unselected_session (os : list Op) :
  forallb (fun o => negb (is_SetDatabase o)) os = true ->
  preserves unselected (run_ops os).
Proof.
  apply preserves_run_ops. intros o Ho.
  apply preserves_run_op.
  - intros s ev w _ Hs. exact Hs.
  - exact unselected_Connect.
  - intros n ->. discriminate.
  - intros n _ s Hs. rewrite SetCollection_refused; [exact Hs|apply Hs].
Qed.

(** C2. On a client whose database reference is nil, [SetCollection]
    returns false and the error "please set a database before setting a
    collection", for every name, and changes nothing; on a client with a
    database [d] it returns true and a nil error and stores the
    collection of that name in [d].  A client that was built by
    [NewClient] and on which [SetDatabase] was never called is in the
    first case, whatever else was called on it, and its collection
    reference is nil before and after. *)
Theorem SetCollection_needs_database (cl_name : string) :
  (forall s,
     db (client s) = None ->
     SetCollection cl_name s =
       Returned
         (false, Some (errors_New "please set a database before setting a collection"))
         s) /\
  (forall s d,
     db (client s) = Some d ->
     SetCollection cl_name s =
       Returned (true, None)
         (with_client s (set_co (Some (database_Collection d cl_name)) (client s))) /\
     co (client (state_of (SetCollection cl_name s))) =
       Some (database_Collection d cl_name)) /\
  (forall _username _password _url w os,
     forallb (fun o => negb (is_SetDatabase o)) os = true ->
     let s := state_of (run_ops os (start (NewClient _username _password _url) w)) in
     db (client s) = None /\
     co (client s) = None /\
     result_of (SetCollection cl_name s) =
       Some (false, Some (errors_New "please set a database before setting a collection")) /\
     co (client (state_of (SetCollection cl_name s))) = None).
Proof.
  split; [|split].
  - intros s Hd. now apply SetCollection_refused.
  - intros s d Hd. rewrite (SetCollection_run cl_name s d Hd). split; reflexivity.
  - intros user pass url w os Hos s.
    assert (Hs : unselected s).
    { apply (unselected_session os Hos). split; reflexivity. }
    destruct Hs as [Hd Hc].
    rewrite (SetCollection_refused cl_name s Hd). simpl. auto.
Qed.

(** C9, as amended. On a client that holds a connection handle,
    [SetDatabase] returns for every name and changes the database
    reference and nothing else: handle, credentials, url, world and log
    are as before and so is the collection reference.  A collection chosen
    in database [a] is therefore still the client's collection after
    [SetDatabase b], and is replaced by one of [b] only by the next
    [SetCollection]. *)
Theorem SetDatabase_changes_only_database (db_name : string) (s : State)
  (h : MongoClient) :
  cl (client s) = Some h ->
  SetDatabase db_name s =
    Returned tt (with_client s (set_db (Some (client_Database h db_name)) (client s))) /\
  (let s' := state_of (SetDatabase db_name s) in
   db (client s') = Some (client_Database h db_name) /\
   co (client s') = co (client s) /\
   cl (client s') = cl (client s) /\
   cr (client s') = cr (client s) /\
   u (client s') = u (client s) /\
   world s' = world s /\
   calls s' = calls s) /\
  (forall a c,
     let s' := state_of (run_ops [OpSetDatabase a; OpSetCollection c;
                                  OpSetDatabase db_name] s) in
     db (client s') = Some (client_Database h db_name) /\
     co (client s') = Some (database_Collection (client_Database h a) c) /\
     forall c',
       co (client (state_of (SetCollection c' s'))) =
         Some (database_Collection (client_Database h db_name) c')).
Proof.
  intros Hh. rewrite (SetDatabase_run db_name s h Hh).
  split; [reflexivity|]. split; [simpl; tauto|].
  intros a c s'. subst s'.
  unfold run_ops, run_op, discard, bind, ret.
  rewrite (SetDatabase_run a s h Hh).
  rewrite (SetCollection_run c _ (client_Database h a)) by reflexivity.
  rewrite (SetDatabase_run db_name _ h) by exact Hh.
  simpl. split; [reflexivity|]. split; [reflexivity|].
  intros c'. reflexivity.
Qed.






End SelectionClaims.

(** ** What the methods write to the log *)

Section Logs.
Context {T : DriverTypes} {D : Driver}.

Lemma only_calls_ret Q {A} (a : A) : only_calls Q (ret a).
Proof. intros s. exists []. simpl. now rewrite app_nil_r. Qed.

Lemma only_calls_this Q : only_calls Q this.
Proof. intros s. exists []. simpl. now rewrite app_nil_r. Qed.

Lemma only_calls_deref Q {A} (p : option A) : only_calls Q (deref p).
Proof. intros s. exists []. unfold deref. destruct p; simpl; now rewrite app_nil_r. Qed.

Lemma only_calls_store Q f : only_calls Q (store f).
Proof. intros s. exists []. simpl. now rewrite app_nil_r. Qed.

Lemma only_calls_invoke (Q : Call -> bool) {A} ev (op : World -> A * World) :
  Q ev = true -> only_calls Q (invoke ev op).
Proof. intros Hev s. exists [ev]. simpl. now rewrite Hev. Qed.

Lemma only_calls_bind Q {A B} (m : M A) (f : A -> M B) :
  only_calls Q m -> (forall a, only_calls Q (f a)) -> only_calls Q (bind m f).
Proof.
  intros Hm Hf s. unfold bind. destruct (Hm s) as (evs & Hc & Hq).
  destruct (m s) as [a s'|s']; simpl in *.
  - destruct (Hf a s') as (evs' & Hc' & Hq').
    exists (evs ++ evs'). rewrite Hc', Hc, app_assoc. split; [reflexivity|].
    rewrite forallb_app. now rewrite Hq, Hq'.
  - now exists evs.
Qed.

Lemma only_calls_weaken (Q Q' : Call -> bool) {A} (m : M A) :
  (forall ev, Q ev = true -> Q' ev = true) -> only_calls Q m -> only_calls Q' m.
Proof.
  intros HQ Hm s. destruct (Hm s) as (evs & Hc & Hq). exists evs. split; [exact Hc|].
  rewrite forallb_forall in *. auto.
Qed.

Lemma only_calls_emitted Q {A} (m : M A) (s : State) :
  only_calls Q m ->
  calls (state_of (m s)) = calls s ++ emitted m s /\ forallb Q (emitted m s) = true.
Proof.
  intros Hm. destruct (Hm s) as (evs & Hc & Hq).
  now rewrite (emitted_extends m s evs Hc).
Qed.

Ltac logs :=
  repeat first
    [ apply only_calls_ret
    | apply only_calls_this
    | apply only_calls_deref
    | apply only_calls_store
    | apply only_calls_invoke; reflexivity
    | apply only_calls_bind; [|intro]
    | match goal with
      | |- only_calls _ (match ?x with _ => _ end) => destruct x
      end ].

(** Each method calls only the driver operations of its footprint. *)
Lemma run_op_footprint (o : Op) : only_calls (uses (footprint o)) (run_op o).
Proof.
  destruct o; simpl;
    unfold discard, ReplaceOne, RemoveMany, RemoveOne, UpdateMany, UpdateOne,
      InsertMany, InsertOne, FindMany, FindOne, SetCollection, SetDatabase,
      Ping, Disconnect, Connect;
    logs.
Qed.

Lemma only_calls_run_ops (allowed : Op -> bool) (Q : Call -> bool) :
  (forall o, allowed o = true -> only_calls Q (run_op o)) ->
  forall os, forallb allowed os = true -> only_calls Q (run_ops os).
Proof.
  intros Hop os. induction os as [|o os IH]; simpl; intros Hall.
  - apply only_calls_ret.
  - apply andb_true_iff in Hall. destruct Hall as [Ho Hos].
    apply only_calls_bind; [now apply Hop|]. intros _. now apply IH.
Qed.

Lemma uses_app ks ks' ev : uses (ks ++ ks') ev = uses ks ev || uses ks' ev.
Proof. unfold uses. apply existsb_app. Qed.

Lemma run_ops_footprint (os : list Op) :
  only_calls (uses (flat_map footprint os)) (run_ops os).
Proof.
  induction os as [|o os IH]; simpl.
  - apply only_calls_ret.
  - apply only_calls_bind.
    + apply (only_calls_weaken (uses (footprint o))); [|apply run_op_footprint].
      intros ev Hev. rewrite uses_app, Hev. reflexivity.
    + intros _. apply (only_calls_weaken (uses (flat_map footprint os))); [|exact IH].
      intros ev Hev. rewrite uses_app, Hev. apply orb_true_r.
Qed.

(** X1. Whatever is called on a client, in whatever state, the log only
    grows, and every call added belongs to the footprint of one of the
    methods called: a method reaches the driver only through the operations
    written in its body and in the methods it calls. *)
Theorem session_footprint (os : list Op) (s : State) :
  calls (state_of (run_ops os s)) = calls s ++ emitted (run_ops os) s /\
  forallb (uses (flat_map footprint os)) (emitted (run_ops os) s) = true.
Proof. apply only_calls_emitted, run_ops_footprint. Qed.

(** X2. The driver's disconnect is called by [Disconnect] and by nothing
    else.  In particular a [Connect], called directly or by [Ping], that
    replaces the handle does not close the one it replaces. *)
Theorem only_Disconnect_disconnects (os : list Op) (s : State) :
  forallb (fun o => negb (is_Disconnect o)) os = true ->
  forallb (fun ev => negb (is_disconnect ev)) (emitted (run_ops os) s) = true.
Proof.
  intros Hos. apply only_calls_emitted.
  apply (only_calls_run_ops (fun o => negb (is_Disconnect o))); [|exact Hos].
  intros o Ho. apply (only_calls_weaken (uses (footprint o))); [|apply run_op_footprint].
  intros ev Hev. destruct o; try discriminate Ho; destruct ev; try discriminate Hev;
    reflexivity.
Qed.

(** X3. A sequence of calls that contains none of [InsertOne],
    [UpdateOne], [RemoveOne], [RemoveMany] and [ReplaceOne] never makes a
    writing driver call.  [InsertMany] and [UpdateMany] are on the harmless
    side: with any arguments they write nothing. *)
Theorem reads_never_write (os : list Op) (s : State) :
  forallb (fun o => negb (mutates o)) os = true ->
  forallb (fun ev => negb (is_mutation ev)) (emitted (run_ops os) s) = true.
Proof.
  intros Hos. apply only_calls_emitted.
  apply (only_calls_run_ops (fun o => negb (mutates o))); [|exact Hos].
  intros o Ho. apply (only_calls_weaken (uses (footprint o))); [|apply run_op_footprint].
  intros ev Hev. destruct o; try discriminate Ho; destruct ev; try discriminate Hev;
    reflexivity.
Qed.
End Logs.

(** ** How often a method calls the driver *)

Section Bounds.
Context {T : DriverTypes} {D : Driver}.
Variable Q : Call -> bool.

Lemma at_most_ret n {A} (a : A) : emits_at_most Q n (ret a).
Proof. intros s. exists []. simpl. rewrite app_nil_r. split; [reflexivity|lia]. Qed.

Lemma at_most_this n : emits_at_most Q n this.
Proof. intros s. exists []. simpl. rewrite app_nil_r. split; [reflexivity|lia]. Qed.

Lemma at_most_deref n {A} (p : option A) : emits_at_most Q n (deref p).
Proof.
  intros s. exists []. unfold deref.
  destruct p; simpl; rewrite app_nil_r; (split; [reflexivity|lia]).
Qed.

Lemma at_most_invoke n {A} ev (op : World -> A * World) :
  emits_at_most Q (S n) (invoke ev op).
Proof.
  intros s. exists [ev]. simpl. split; [reflexivity|].
  destruct (Q ev); simpl; lia.
Qed.

Lemma at_most_bind n k {A B} (m : M A) (f : A -> M B) :
  emits_at_most Q n m -> (forall a, emits_at_most Q k (f a)) ->
  emits_at_most Q (n + k) (bind m f).
Proof.
  intros Hm Hf s. unfold bind. destruct (Hm s) as (evs & Hc & Hq).
  destruct (m s) as [a s'|s']; simpl in *.
  - destruct (Hf a s') as (evs' & Hc' & Hq').
    exists (evs ++ evs'). rewrite Hc', Hc, app_assoc. split; [reflexivity|].
    rewrite filter_app, length_app. lia.
  - exists evs. split; [exact Hc|lia].
Qed.

Lemma at_most_quiet {A} (m : M A) n :
  only_calls (fun ev => negb (Q ev)) m -> emits_at_most Q n m.
Proof.
  intros Hm s. destruct (Hm s) as (evs & Hc & Hq). exists evs. split; [exact Hc|].
  assert (Hnil : filter Q evs = []).
  { clear Hc. induction evs as [|e evs IH]; simpl in *; [reflexivity|].
    apply andb_true_iff in Hq. destruct Hq as [He Hq].
    destruct (Q e); [discriminate|]. now apply IH. }
  rewrite Hnil. simpl. lia.
Qed.

Lemma at_most_emitted {A} (m : M A) n (s : State) :
  emits_at_most Q n m -> length (filter Q (emitted m s)) <= n.
Proof.
  intros Hm. destruct (Hm s) as (evs & Hc & Hq).
  now rewrite (emitted_extends m s evs Hc).
Qed.
End Bounds.

Section RetryBound.
Context {T : DriverTypes} {D : Driver}.

Lemma Ping_quiet (Q : Call -> bool) n :
  (forall ev, uses [KPing; KConnect] ev = true -> Q ev = false) ->
  emits_at_most Q n Ping.
Proof.
  intros HQ. apply at_most_quiet.
  apply (only_calls_weaken (uses (footprint OpPing))).
  - intros ev Hev. simpl in Hev. now rewrite (HQ ev Hev).
  - pose proof (run_op_footprint OpPing) as H. simpl in H. unfold discard in H.
    intros s. destruct (H s) as (evs & Hc & Hq). exists evs. split; [|exact Hq].
    unfold bind in Hc. destruct (Ping s); exact Hc.
Qed.

Lemma probe_not_mutation ev : uses [KPing; KConnect] ev = true -> is_mutation ev = false.
Proof. destruct ev; simpl; intros H; try discriminate H; reflexivity. Qed.

Lemma probe_not_query ev : uses [KPing; KConnect] ev = true -> is_query ev = false.
Proof. destruct ev; simpl; intros H; try discriminate H; reflexivity. Qed.

(** The shape every CRUD method has: nothing counted in [Ping], then at
    most [n] counted calls. *)
Ltac after_quiet_ping HQ :=
  apply (at_most_bind _ 0); [apply Ping_quiet; exact HQ|intros [e|]].

Ltac count :=
  repeat first
    [ apply at_most_ret
    | apply at_most_this
    | apply at_most_deref
    | apply at_most_invoke
    | apply (at_most_bind _ 0); [first [apply at_most_this | apply at_most_deref]|intro]
    | apply (at_most_bind _ 1); [apply at_most_invoke|intro]
    | match goal with
      | |- emits_at_most _ _ (match ?x with _ => _ end) => destruct x
      end ].

Lemma FindOne_no_mutation n filter : emits_at_most is_mutation n (FindOne filter).
Proof.
  apply at_most_quiet.
  apply (only_calls_weaken (uses (footprint (OpFindOne filter)))).
  - intros ev Hev. destruct ev; simpl in *; try discriminate Hev; reflexivity.
  - pose proof (run_op_footprint (OpFindOne filter)) as H. simpl in H.
    unfold discard in H.
    intros s. destruct (H s) as (evs & Hc & Hq). exists evs. split; [|exact Hq].
    unfold bind in Hc. destruct (FindOne filter s); exact Hc.
Qed.

Lemma FindOne_one_query filter : emits_at_most is_query 1 (FindOne filter).
Proof.
  unfold FindOne. after_quiet_ping probe_not_query; count.
Qed.

Lemma at_most_invoke_quiet (Q : Call -> bool) n {A} ev (op : World -> A * World) :
  Q ev = false -> emits_at_most Q n (invoke ev op).
Proof.
  intros Hev s. exists [ev]. simpl. split; [reflexivity|]. rewrite Hev. simpl. lia.
Qed.

Ltac count_queries :=
  repeat first
    [ apply at_most_ret
    | apply at_most_this
    | apply at_most_deref
    | apply FindOne_one_query
    | apply at_most_invoke_quiet; reflexivity
    | apply (at_most_bind _ 0);
        [first [apply at_most_this | apply at_most_deref
               | apply at_most_invoke_quiet; reflexivity]|intro]
    | match goal with
      | |- emits_at_most _ _ (match ?x with _ => _ end) => destruct x
      end ].

Ltac count_mutations :=
  repeat first
    [ apply at_most_ret
    | apply at_most_this
    | apply at_most_deref
    | apply FindOne_no_mutation
    | apply at_most_invoke
    | apply (at_most_bind _ 0); [first [apply at_most_this | apply at_most_deref]|intro]
    | apply (at_most_bind _ 1); [apply at_most_invoke|intro]
    | match goal with
      | |- emits_at_most _ _ (match ?x with _ => _ end) => destruct x
      end ].

(** X4. In every state and with every driver, one call of [InsertOne],
    [UpdateOne], [RemoveOne], [RemoveMany] or [ReplaceOne] makes at most two
    writing driver calls, the attempt and its one repetition, and one
    call of [FindOne], [FindMany], [UpdateOne] or [ReplaceOne] makes at most
    one query: a query is never repeated. *)
Theorem retry_is_bounded (s : State) :
  (forall object options,
     length (List.filter is_mutation (emitted (InsertOne object options) s)) <= 2) /\
  (forall filter update options,
     length (List.filter is_mutation (emitted (UpdateOne filter update options) s)) <= 2 /\
     length (List.filter is_query (emitted (UpdateOne filter update options) s)) <= 1) /\
  (forall filter options,
     length (List.filter is_mutation (emitted (RemoveOne filter options) s)) <= 2) /\
  (forall filter options,
     length (List.filter is_mutation (emitted (RemoveMany filter options) s)) <= 2) /\
  (forall filter replacement options,
     length (List.filter is_mutation (emitted (ReplaceOne filter replacement options) s)) <= 2 /\
     length (List.filter is_query (emitted (ReplaceOne filter replacement options) s)) <= 1) /\
  (forall filter,
     length (List.filter is_query (emitted (FindOne filter) s)) <= 1) /\
  (forall filter options,
     length (List.filter is_query (emitted (FindMany filter options) s)) <= 1).
Proof.
  repeat split; intros; apply at_most_emitted.
  - unfold InsertOne. after_quiet_ping probe_not_mutation; count_mutations.
  - unfold UpdateOne. after_quiet_ping probe_not_mutation; count_mutations.
  - unfold UpdateOne. after_quiet_ping probe_not_query; count_queries.
  - unfold RemoveOne. after_quiet_ping probe_not_mutation; count_mutations.
  - unfold RemoveMany. after_quiet_ping probe_not_mutation; count_mutations.
  - unfold ReplaceOne. after_quiet_ping probe_not_mutation; count_mutations.
  - unfold ReplaceOne. after_quiet_ping probe_not_query; count_queries.
  - apply FindOne_one_query.
  - unfold FindMany. after_quiet_ping probe_not_query; count.
Qed.
End RetryBound.

(** ** What a sequence of calls keeps *)

Section SessionInvariants.
Context {T : DriverTypes} {D : Driver}.

Lemma SetDatabase_cases (n : string) (s : State) :
  SetDatabase n s = Panicked s \/
  exists h, cl (client s) = Some h /\
    SetDatabase n s =
      Returned tt (with_client s (set_db (Some (client_Database h n)) (client s))).
Proof.
  unfold SetDatabase, bind, this, deref, store.
  destruct (cl (client s)) as [h|]; [right; now exists h|now left].
Qed.

Lemma SetCollection_cases (n : string) (s : State) :
  (db (client s) = None /\ state_of (SetCollection n s) = s) \/
  exists d, db (client s) = Some d /\
    state_of (SetCollection n s) =
      with_client s (set_co (Some (database_Collection d n)) (client s)).
Proof.
  unfold SetCollection, bind, this, store, ret. simpl.
  destruct (db (client s)) as [d|]; [right; now exists d|now left].
Qed.

Lemma Connect_cases (s : State) :
  Connect s = Panicked s \/
  exists k, cr (client s) = Some k /\ state_of (Connect s) = connected s k.
Proof.
  destruct (cr (client s)) as [k|] eqn:Hk.
  - right. exists k. now rewrite (Connect_run s k Hk).
  - left. now apply Connect_without_credentials.
Qed.

(** A property of the client that [set_cl], [set_db] and [set_co] do not
    disturb, as far as the fields it reads go, is kept by every method. *)
Lemma preserves_client_property (R : Client -> Prop) (allowed : Op -> bool) :
  (forall c h, R c -> R (set_cl h c)) ->
  (forall c n h, cl c = Some h -> allowed (OpSetDatabase n) = true ->
     R c -> R (set_db (Some (client_Database h n)) c)) ->
  (forall c n d, db c = Some d -> allowed (OpSetCollection n) = true ->
     R c -> R (set_co (Some (database_Collection d n)) c)) ->
  forall os, forallb allowed os = true ->
  preserves (fun s => R (client s)) (run_ops os).
Proof.
  intros Hcl Hdb Hco. apply preserves_run_ops. intros o Ho.
  apply preserves_run_op.
  - intros s ev w _ Hs. exact Hs.
  - intros s Hs. destruct (Connect_cases s) as [->|(k & _ & ->)]; [exact Hs|].
    simpl. now apply Hcl.
  - intros n -> s Hs.
    destruct (SetDatabase_cases n s) as [->|(h & Hh & ->)]; [exact Hs|].
    simpl. now apply (Hdb _ n h).
  - intros n -> s Hs.
    destruct (SetCollection_cases n s) as [[_ ->]|(d & Hd & ->)]; [exact Hs|].
    simpl. now apply (Hco _ n d).
Qed.

(** X5. Credentials and url suffix are fixed at construction: no sequence
    of calls, whatever the driver answers and wherever it stops, changes
    [cr] or [u]. *)
Theorem session_keeps_credentials (os : list Op) (s : State) :
  cr (client (state_of (run_ops os s))) = cr (client s) /\
  u (client (state_of (run_ops os s))) = u (client s).
Proof.
  apply (preserves_client_property
           (fun c => cr c = cr (client s) /\ u c = u (client s)) (fun _ => true)).
  - intros c h Hc. exact Hc.
  - intros c n h _ _ Hc. exact Hc.
  - intros c n d _ _ Hc. exact Hc.
  - now apply forallb_forall.
  - split; reflexivity.
Qed.

(** X6. A client never has a collection without a database: if that
    holds when a sequence of calls starts, as it does for a client from
    [NewClient], it holds wherever the sequence stops. *)
Theorem collection_implies_database (os : list Op) (s : State) :
  (co (client s) <> None -> db (client s) <> None) ->
  co (client (state_of (run_ops os s))) <> None ->
  db (client (state_of (run_ops os s))) <> None.
Proof.
  intros Hs.
  apply (preserves_client_property
           (fun c => co c <> None -> db c <> None) (fun _ => true)).
  - intros c h Hc. exact Hc.
  - intros c n h _ _ Hc _. simpl. discriminate.
  - intros c n d Hd _ Hc _. simpl. congruence.
  - now apply forallb_forall.
  - exact Hs.
Qed.

(** X7. Only [SetDatabase] and [SetCollection] change the selection: a
    sequence of calls that contains neither leaves [db] and [co] as they
    were, reconnects and failed operations included. *)
Theorem only_selection_changes_selection (os : list Op) (s : State) :
  forallb (fun o => negb (is_selection o)) os = true ->
  db (client (state_of (run_ops os s))) = db (client s) /\
  co (client (state_of (run_ops os s))) = co (client s).
Proof.
  intros Hos.
  apply (preserves_client_property
           (fun c => db c = db (client s) /\ co c = co (client s))
           (fun o => negb (is_selection o))).
  - intros c h Hc. exact Hc.
  - intros c n h _ Hn _. discriminate Hn.
  - intros c n d _ Hn _. discriminate Hn.
  - exact Hos.
  - split; reflexivity.
Qed.

Lemma handle_tracked_session (s0 : State) (os : list Op) :
  preserves (handle_tracked s0) (run_ops os).
Proof.
  apply (preserves_run_ops _ (fun _ => true)); [|now apply forallb_forall].
  intros o _. apply preserves_run_op.
  - intros s ev w Hev (evs & Hc & Hh). exists (evs ++ [ev]). simpl.
    rewrite Hc, app_assoc. split; [reflexivity|].
    rewrite forallb_app. intros Hq. apply andb_true_iff in Hq. now apply Hh.
  - intros s (evs & Hc & Hh).
    destruct (Connect_cases s) as [->|(k & _ & ->)]; [now exists evs|].
    exists (evs ++ [CallConnect (connection_string k (u (client s)))]).
    unfold connected. simpl. rewrite Hc, app_assoc. split; [reflexivity|].
    rewrite forallb_app. simpl. rewrite andb_false_r. discriminate.
  - intros n _ s (evs & Hc & Hh).
    destruct (SetDatabase_cases n s) as [->|(h & _ & ->)]; now exists evs.
  - intros n _ s (evs & Hc & Hh).
    destruct (SetCollection_cases n s) as [[_ ->]|(d & _ & ->)]; now exists evs.
Qed.

(** X8. The handle changes only when the driver's connect is called: a
    sequence of calls that logged no connect ends with the handle it started
    with.  [Disconnect] in particular leaves the handle in place. *)
Theorem handle_changes_only_on_connect (os : list Op) (s : State) :
  forallb (fun ev => negb (is_connect ev)) (emitted (run_ops os) s) = true ->
  cl (client (state_of (run_ops os s))) = cl (client s).
Proof.
  destruct (handle_tracked_session s os s) as (evs & Hc & Hh).
  { exists []. rewrite app_nil_r. split; [reflexivity|]. reflexivity. }
  rewrite (emitted_extends (run_ops os) s evs Hc). exact Hh.
Qed.
End SessionInvariants.

(** ** Connection handling *)

Section HandleProperties.
Context {T : DriverTypes} {D : Driver}.

Lemma Disconnect_run (s : State) (h : MongoClient) :
  cl (client s) = Some h ->
  Disconnect s =
    Returned
      match fst (client_Disconnect h (world s)) with
      | Some e => (false, Some (driver_error e))
      | None => (true, None)
      end
      (logged s (CallDisconnect h) (snd (client_Disconnect h (world s)))).
Proof.
  intros Hh. unfold Disconnect, bind, this, deref, invoke, ret. rewrite Hh. simpl.
  destruct (fst (client_Disconnect h (world s))); reflexivity.
Qed.

Lemma Ping_first_call (s : State) (h : MongoClient) :
  cl (client s) = Some h -> exists rest, emitted Ping s = CallPing h :: rest.
Proof.
  intros Hh. destruct (fst (client_Ping h (world s))) as [e|] eqn:Hp.
  - assert (Hne : fst (client_Ping h (world s)) <> None) by congruence.
    destruct (cr (client s)) as [k|] eqn:Hk.
    + exists [CallConnect (connection_string k (u (client s)))].
      apply emitted_extends. rewrite (Ping_reconnect s h Hh Hne).
      rewrite (Connect_run _ k) by exact Hk. simpl. now rewrite <- app_assoc.
    + exists []. apply emitted_extends. rewrite (Ping_reconnect s h Hh Hne).
      now rewrite Connect_without_credentials by exact Hk.
  - exists []. apply emitted_extends. now rewrite (Ping_alive s h Hh Hp).
Qed.

(** X9. [Disconnect] on a client with a handle makes one driver call,
    returns true with a nil error when it succeeds and false with the
    driver's error when it fails, and in both cases leaves the client as it
    was: the closed handle stays in [cl], and the next [Ping] probes through
    that same handle. *)
Theorem Disconnect_keeps_handle (s : State) (h : MongoClient) :
  cl (client s) = Some h ->
  let r := client_Disconnect h (world s) in
  emitted Disconnect s = [CallDisconnect h] /\
  client (state_of (Disconnect s)) = client s /\
  (fst r = None -> result_of (Disconnect s) = Some (true, None)) /\
  (forall e, fst r = Some e ->
     result_of (Disconnect s) = Some (false, Some (driver_error e))) /\
  (exists rest, emitted Ping (state_of (Disconnect s)) = CallPing h :: rest).
Proof.
  intros Hh r. rewrite (Disconnect_run s h Hh). fold r.
  split; [|split; [|split; [|split]]].
  - apply emitted_extends. rewrite (Disconnect_run s h Hh). reflexivity.
  - reflexivity.
  - intros ->. reflexivity.
  - intros e ->. reflexivity.
  - apply Ping_first_call. exact Hh.
Qed.

Lemma run_op_without_handle (o : Op) (s : State) :
  cl (client s) = None -> needs_handle o = true -> run_op o s = Panicked s.
Proof.
  intros Hh Ho.
  assert (HP : Ping s = Panicked s) by now apply Ping_without_handle.
  destruct o; try discriminate Ho; simpl;
    unfold discard, ReplaceOne, RemoveMany, RemoveOne, UpdateMany, UpdateOne,
      InsertMany, InsertOne, FindMany, FindOne, bind;
    try (now rewrite HP).
  - unfold Disconnect, bind, this, deref. now rewrite Hh.
  - unfold SetDatabase, bind, this, deref. now rewrite Hh.
Qed.

(** X10. With a nil handle every method except [Connect] and
    [SetCollection] panics at once, before any driver call.  That is the
    state of a client fresh from [NewClient]: nothing but [Connect] and
    [SetCollection] can be called on it. *)
Theorem nil_handle_panics (o : Op) :
  needs_handle o = true ->
  (forall s, cl (client s) = None ->
     run_op o s = Panicked s /\ emitted (run_op o) s = []) /\
  (forall _username _password _url w,
     run_op o (start (NewClient _username _password _url) w) =
       Panicked (start (NewClient _username _password _url) w)).
Proof.
  intros Ho. split.
  - intros s Hh. rewrite (run_op_without_handle o s Hh Ho). split; [reflexivity|].
    apply emitted_extends. rewrite (run_op_without_handle o s Hh Ho). simpl.
    now rewrite app_nil_r.
  - intros user pass url w. now apply run_op_without_handle.
Qed.

(** X11. When the probe of [Ping] fails and the driver's connect then
    returns an error and no handle, [Ping] returns that error and leaves the
    client without a handle: from then on every method except [Connect] and
    [SetCollection] panics, the next [Ping] included.  Only a [Connect] that
    yields a handle makes the client usable again. *)
Theorem failed_reconnect_disables_client (s : State) (h : MongoClient)
  (k : Credentials) (ce : DriverError) :
  cl (client s) = Some h ->
  cr (client s) = Some k ->
  fst (client_Ping h (world s)) <> None ->
  fst (mongo_Connect (connection_string k (u (client s)))
         (snd (client_Ping h (world s)))) = (None, Some ce) ->
  result_of (Ping s) = Some (Some (driver_error ce)) /\
  cl (client (state_of (Ping s))) = None /\
  forall o, needs_handle o = true ->
    run_op o (state_of (Ping s)) = Panicked (state_of (Ping s)).
Proof.
  intros Hh Hk Hp Hc.
  assert (HP : Ping s =
               Returned (Some (driver_error ce))
                 (connected (logged s (CallPing h) (snd (client_Ping h (world s)))) k)).
  { rewrite (Ping_reconnect s h Hh Hp).
    rewrite (Connect_run (logged s (CallPing h) (snd (client_Ping h (world s)))) k Hk).
    simpl. now rewrite Hc. }
  assert (Hnil : cl (client (state_of (Ping s))) = None).
  { rewrite HP. unfold connected. simpl. now rewrite Hc. }
  split; [now rewrite HP|]. split; [exact Hnil|].
  intros o Ho. now apply run_op_without_handle.
Qed.
End HandleProperties.

(** ** Queries and the value of an update *)

Section CrudProperties.
Context {T : DriverTypes} {D : Driver}.

Ltac past_ping HP Hco :=
  unfold bind; rewrite HP; unfold this, deref, bind; simpl;
  try (rewrite Hco; unfold invoke, ret; simpl).

Lemma Ping_keeps_co (s s1 : State) (e : option error) :
  Ping s = Returned e s1 -> co (client s1) = co (client s).
Proof.
  intros HP. pose proof (Ping_frame s) as HF. rewrite HP in HF. simpl in HF. tauto.
Qed.

Lemma FindOne_after_failed_ping (filter : any) (s s1 : State) (e : error) :
  Ping s = Returned (Some e) s1 -> FindOne filter s = Returned None s1.
Proof. intros HP. unfold FindOne, bind. now rewrite HP. Qed.

(** X12. [UpdateOne] and [ReplaceOne] return nil in three situations
    that the caller cannot tell apart: [Ping] returned an error, and they
    stop in the state [Ping] left; the attempt and its repetition both
    returned an error, and they stop after those two driver calls, without
    calling [FindOne]; an attempt returned no error, and the [Ping] inside
    the [FindOne] that follows returned one.  A nil result does not say
    whether the driver reported the write as done. *)
Theorem Update_Replace_nil_is_ambiguous (filter : any) (s : State) :
  (forall e s1 update options replacement options',
     Ping s = Returned (Some e) s1 ->
     UpdateOne filter update options s = Returned None s1 /\
     ReplaceOne filter replacement options' s = Returned None s1) /\
  (forall s1 col update options,
     Ping s = Returned None s1 ->
     co (client s) = Some col ->
     let ev := CallUpdateOne col filter update options in
     let first := collection_UpdateOne col filter update options (world s1) in
     let s2 := logged s1 ev (snd first) in
     let second := collection_UpdateOne col filter update options (snd first) in
     let s3 := logged s2 ev (snd second) in
     (snd (fst first) <> None -> snd (fst second) <> None ->
        UpdateOne filter update options s = Returned None s3) /\
     (forall e s', snd (fst first) = None -> Ping s2 = Returned (Some e) s' ->
        UpdateOne filter update options s = Returned None s') /\
     (forall e s', snd (fst first) <> None -> snd (fst second) = None ->
        Ping s3 = Returned (Some e) s' ->
        UpdateOne filter update options s = Returned None s')) /\
  (forall s1 col replacement options,
     Ping s = Returned None s1 ->
     co (client s) = Some col ->
     let ev := CallReplaceOne col filter replacement options in
     let first := collection_ReplaceOne col filter replacement options (world s1) in
     let s2 := logged s1 ev (snd first) in
     let second := collection_ReplaceOne col filter replacement options (snd first) in
     let s3 := logged s2 ev (snd second) in
     (snd (fst first) <> None -> snd (fst second) <> None ->
        ReplaceOne filter replacement options s = Returned None s3) /\
     (forall e s', snd (fst first) = None -> Ping s2 = Returned (Some e) s' ->
        ReplaceOne filter replacement options s = Returned None s') /\
     (forall e s', snd (fst first) <> None -> snd (fst second) = None ->
        Ping s3 = Returned (Some e) s' ->
        ReplaceOne filter replacement options s = Returned None s')).
Proof.
  split; [|split].
  - intros e s1 update options replacement options' HP. split.
    + unfold UpdateOne. past_ping HP HP. reflexivity.
    + unfold ReplaceOne. past_ping HP HP. reflexivity.
  - intros s1 col update options HP Hco ev first s2 second s3.
    assert (Hco1 : co (client s1) = Some col)
      by (rewrite (Ping_keeps_co s s1 None HP); exact Hco).
    split; [|split].
    + intros H1 H2. unfold UpdateOne. past_ping HP Hco1.
      fold first. destruct (snd (fst first)) as [e1|]; [|congruence].
      unfold this, deref, bind; simpl. rewrite Hco1. simpl.
      fold second. destruct (snd (fst second)) as [e2|]; [reflexivity|congruence].
    + intros e s' H1 HP2. unfold UpdateOne. past_ping HP Hco1.
      fold first. rewrite H1. now apply (FindOne_after_failed_ping filter s2 s' e).
    + intros e s' H1 H2 HP3. unfold UpdateOne. past_ping HP Hco1.
      fold first. destruct (snd (fst first)) as [e1|]; [|congruence].
      unfold this, deref, bind; simpl. rewrite Hco1. simpl.
      fold second. rewrite H2. now apply (FindOne_after_failed_ping filter s3 s' e).
  - intros s1 col replacement options HP Hco ev first s2 second s3.
    assert (Hco1 : co (client s1) = Some col)
      by (rewrite (Ping_keeps_co s s1 None HP); exact Hco).
    split; [|split].
    + intros H1 H2. unfold ReplaceOne. past_ping HP Hco1.
      fold first. destruct (snd (fst first)) as [e1|]; [|congruence].
      unfold this, deref, bind; simpl. rewrite Hco1. simpl.
      fold second. destruct (snd (fst second)) as [e2|]; [reflexivity|congruence].
    + intros e s' H1 HP2. unfold ReplaceOne. past_ping HP Hco1.
      fold first. rewrite H1. now apply (FindOne_after_failed_ping filter s2 s' e).
    + intros e s' H1 H2 HP3. unfold ReplaceOne. past_ping HP Hco1.
      fold first. destruct (snd (fst first)) as [e1|]; [|congruence].
      unfold this, deref, bind; simpl. rewrite Hco1. simpl.
      fold second. rewrite H2. now apply (FindOne_after_failed_ping filter s3 s' e).
Qed.

(** X13. [FindOne] and [FindMany] return nil when [Ping] fails, without
    asking the driver.  Otherwise they ask once: [FindOne] hands back what
    the driver returned, as it is; [FindMany] returns the driver's cursor
    when there is no error, and nil when there is one, dropping the error
    and whatever came with it. *)
Theorem Find_asks_once (filter : any) (options : FindOptions) (s : State) :
  (forall e s1,
     Ping s = Returned (Some e) s1 ->
     FindOne filter s = Returned None s1 /\
     FindMany filter options s = Returned None s1) /\
  (forall s1 col,
     Ping s = Returned None s1 ->
     co (client s) = Some col ->
     let q := collection_FindOne col filter (world s1) in
     let qs := collection_Find col filter options (world s1) in
     FindOne filter s = Returned (fst q) (logged s1 (CallFindOne col filter) (snd q)) /\
     FindMany filter options s =
       Returned
         match snd (fst qs) with
         | Some _ => None
         | None => fst (fst qs)
         end
         (logged s1 (CallFind col filter options) (snd qs))).
Proof.
  split.
  - intros e s1 HP. split.
    + now apply (FindOne_after_failed_ping filter s s1 e).
    + unfold FindMany. past_ping HP HP. reflexivity.
  - intros s1 col HP Hco q qs.
    assert (Hco1 : co (client s1) = Some col)
      by (rewrite (Ping_keeps_co s s1 None HP); exact Hco).
    split.
    + unfold FindOne. past_ping HP Hco1. reflexivity.
    + unfold FindMany. past_ping HP Hco1. fold qs.
      destruct (snd (fst qs)); reflexivity.
Qed.
End CrudProperties.

(** ** The selected collection *)

Section CollectionProperties.
Context {T : DriverTypes} {D : Driver}.
Variable col : MongoCollection.

Lemma on_collection_ret {A} (a : A) : on_collection col (ret a).
Proof. intros s Hs. split; [exact Hs|]. exists []. simpl. now rewrite app_nil_r. Qed.

Lemma on_collection_this : on_collection col this.
Proof. intros s Hs. split; [exact Hs|]. exists []. simpl. now rewrite app_nil_r. Qed.

Lemma on_collection_deref {A} (p : option A) : on_collection col (deref p).
Proof.
  intros s Hs. unfold deref.
  destruct p; (split; [exact Hs|]); exists []; simpl; now rewrite app_nil_r.
Qed.

Lemma on_collection_set_cl h : on_collection col (store (set_cl h)).
Proof. intros s Hs. split; [exact Hs|]. exists []. simpl. now rewrite app_nil_r. Qed.

Lemma on_collection_set_db d : on_collection col (store (set_db d)).
Proof. intros s Hs. split; [exact Hs|]. exists []. simpl. now rewrite app_nil_r. Qed.

Lemma on_collection_invoke {A} ev (op : World -> A * World) :
  targets col ev -> on_collection col (invoke ev op).
Proof.
  intros Hev s Hs. split; [exact Hs|]. exists [ev]. simpl. split; [reflexivity|].
  now constructor.
Qed.

Lemma on_collection_bind {A B} (m : M A) (f : A -> M B) :
  on_collection col m -> (forall a, on_collection col (f a)) ->
  on_collection col (bind m f).
Proof.
  intros Hm Hf s Hs. unfold bind. destruct (Hm s Hs) as (Hco & evs & Hc & Hq).
  destruct (m s) as [a s'|s']; simpl in *.
  - destruct (Hf a s' Hco) as (Hco' & evs' & Hc' & Hq').
    split; [exact Hco'|]. exists (evs ++ evs').
    rewrite Hc', Hc, app_assoc. split; [reflexivity|].
    apply Forall_app. now split.
  - split; [exact Hco|]. now exists evs.
Qed.

(** [c.co.X(...)]: the receiver read here is the selected collection. *)
Lemma on_collection_through_co {B} (g : MongoCollection -> M B) :
  on_collection col (g col) ->
  on_collection col (bind this (fun c => bind (deref (co c)) g)).
Proof.
  intros Hg s Hs. unfold bind, this, deref. rewrite Hs. now apply Hg.
Qed.

Ltac selected :=
  repeat first
    [ apply on_collection_ret
    | apply on_collection_through_co
    | apply on_collection_this
    | apply on_collection_deref
    | apply on_collection_set_cl
    | apply on_collection_set_db
    | apply on_collection_invoke; exact I
    | apply on_collection_invoke; reflexivity
    | apply on_collection_bind; [|intro]
    | match goal with
      | |- on_collection _ (match ?x with _ => _ end) => destruct x
      end ].

Lemma on_collection_run_op (o : Op) :
  is_SetCollection o = false -> on_collection col (run_op o).
Proof.
  intros Ho. destruct o; try discriminate Ho; simpl;
    unfold discard, ReplaceOne, RemoveMany, RemoveOne, UpdateMany, UpdateOne,
      InsertMany, InsertOne, FindMany, FindOne, SetDatabase,
      Ping, Disconnect, Connect;
    selected.
Qed.

Lemma on_collection_run_ops (os : list Op) :
  forallb (fun o => negb (is_SetCollection o)) os = true ->
  on_collection col (run_ops os).
Proof.
  induction os as [|o os IH]; simpl; intros Hall.
  - apply on_collection_ret.
  - apply andb_true_iff in Hall. destruct Hall as [Ho Hos].
    apply on_collection_bind.
    + apply on_collection_run_op. now destruct (is_SetCollection o).
    + intros _. now apply IH.
Qed.

(** X14. Between two calls of [SetCollection] the client works on one
    collection: started with [col] selected, a sequence of calls without
    [SetCollection] ends with [col] selected, and every find, insert,
    update, delete and replace it sent to the driver went to [col], also
    after a reconnect and after [SetDatabase]. *)
Theorem crud_goes_to_selected_collection (os : list Op) (s : State) :
  co (client s) = Some col ->
  forallb (fun o => negb (is_SetCollection o)) os = true ->
  co (client (state_of (run_ops os s))) = Some col /\
  Forall (targets col) (emitted (run_ops os) s).
Proof.
  intros Hs Hos.
  destruct (on_collection_run_ops os Hos s Hs) as (Hco & evs & Hc & Hq).
  split; [exact Hco|]. now rewrite (emitted_extends (run_ops os) s evs Hc).
Qed.
End CollectionProperties.

(** ** From construction to use *)

Section Lifecycle.
Context {T : DriverTypes} {D : Driver}.

(** X15. [NewClient], then [Connect], [SetDatabase d] and
    [SetCollection c]: whenever the driver's connect yields a handle [h],
    the three calls complete with the driver called once, for the connect.
    Selecting a database and a collection only builds handles from [h]: the
    client ends with database [d] of [h] and collection [c] of that
    database, whether or not they exist on the server. *)
Theorem connect_then_select (_username _password _url d c : string) (w : World)
  (h : MongoClient) :
  let k := {| username := _username; password := _password |} in
  let uri := connection_string k _url in
  fst (fst (mongo_Connect uri w)) = Some h ->
  run_ops [OpConnect; OpSetDatabase d; OpSetCollection c]
    (start (NewClient _username _password _url) w) =
    Returned tt
      {| client :=
           {| cl := Some h;
              cr := Some k;
              db := Some (client_Database h d);
              co := Some (database_Collection (client_Database h d) c);
              u := _url |};
         world := snd (mongo_Connect uri w);
         calls := [CallConnect uri] |}.
Proof.
  intros k uri Hh.
  unfold run_ops, run_op, discard, bind.
  rewrite (Connect_run (start (NewClient _username _password _url) w) k eq_refl).
  unfold connected. simpl. fold uri. rewrite Hh.
  unfold SetDatabase, SetCollection, bind, this, deref, store, ret. simpl.
  reflexivity.
Qed.

Ltac ready_ping HP Hco :=
  unfold bind; rewrite HP; unfold this, deref, bind; simpl;
  try (rewrite Hco; unfold invoke, ret; simpl).

Lemma discard_returns {A} (m : M A) (s : State) :
  result_of (m s) <> None -> result_of (discard m s) = Some tt.
Proof.
  unfold discard, bind, ret. destruct (m s); simpl; congruence.
Qed.

(** X16. On a client with a handle, credentials and a collection, every
    method that pings at most once returns: whatever the driver answers,
    errors included, there is no panic. *)
Theorem ready_client_does_not_panic (s : State) (h : MongoClient) (k : Credentials)
  (col : MongoCollection) (o : Op) :
  cl (client s) = Some h ->
  cr (client s) = Some k ->
  co (client s) = Some col ->
  pings_once o = true ->
  result_of (run_op o s) = Some tt.
Proof.
  intros Hh Hk Hco Ho.
  destruct (Ping_returns s h k Hh Hk) as (e & s1 & HP).
  assert (Hco1 : co (client s1) = Some col).
  { pose proof (Ping_frame s) as HF. rewrite HP in HF. simpl in HF.
    destruct HF as (_ & _ & HF & _). congruence. }
  destruct o; try discriminate Ho; simpl.
  - apply discard_returns. now rewrite (Connect_run s k Hk).
  - apply discard_returns. unfold Disconnect, bind, this, deref, invoke, ret.
    rewrite Hh. simpl. now destruct (fst (client_Disconnect h (world s))).
  - apply discard_returns. now rewrite HP.
  - unfold SetDatabase, bind, this, deref, store. now rewrite Hh.
  - apply discard_returns. unfold SetCollection, bind, this, store, ret. simpl.
    now destruct (db (client s)).
  - apply discard_returns. unfold FindOne. destruct e; ready_ping HP Hco1; discriminate.
  - apply discard_returns. unfold FindMany. destruct e; ready_ping HP Hco1;
      [discriminate|].
    destruct (snd (fst (collection_Find col filter options (world s1)))); discriminate.
  - apply discard_returns. unfold InsertOne. destruct e; ready_ping HP Hco1;
      [discriminate|].
    destruct (snd (fst (collection_InsertOne col object options (world s1))));
      [|discriminate].
    unfold this, deref, bind; simpl. rewrite Hco1. simpl.
    destruct (snd (fst (collection_InsertOne col object options _))); discriminate.
  - apply discard_returns. unfold InsertMany, bind. rewrite HP.
    destruct e; discriminate.
  - apply discard_returns. unfold UpdateMany, bind. rewrite HP.
    destruct e; discriminate.
  - apply discard_returns. unfold RemoveOne. destruct e; ready_ping HP Hco1;
      [discriminate|].
    destruct (snd (fst (collection_DeleteOne col filter options (world s1))));
      [|discriminate].
    unfold this, deref, bind; simpl. rewrite Hco1. simpl.
    destruct (snd (fst (collection_DeleteOne col filter options _))); discriminate.
  - apply discard_returns. unfold RemoveMany. destruct e; ready_ping HP Hco1;
      [discriminate|].
    destruct (snd (fst (collection_DeleteMany col filter options (world s1))));
      [|discriminate].
    unfold this, deref, bind; simpl. rewrite Hco1. simpl.
    destruct (snd (fst (collection_DeleteMany col filter options _))); discriminate.
Qed.
Lemma Ping_leaves_handle (s s1 : State) (h : MongoClient) :
  (forall uri w,
     snd (fst (mongo_Connect uri w)) = None -> fst (fst (mongo_Connect uri w)) <> None) ->
  cl (client s) = Some h ->
  Ping s = Returned None s1 ->
  exists h', cl (client s1) = Some h'.
Proof.
  intros Hdrv Hh HP.
  destruct (fst (client_Ping h (world s))) as [pe|] eqn:Hp.
  - assert (Hne : fst (client_Ping h (world s)) <> None) by congruence.
    rewrite (Ping_reconnect s h Hh Hne) in HP.
    destruct (cr (client s)) as [k|] eqn:Hk.
    + rewrite (Connect_run (logged s (CallPing h) (snd (client_Ping h (world s)))) k Hk)
        in HP.
      injection HP as Hr Hs. subst s1. unfold connected. simpl in *.
      set (conn := mongo_Connect _ _) in *.
      assert (Hnone : snd (fst conn) = None) by (destruct (snd (fst conn)); [discriminate|reflexivity]).
      specialize (Hdrv _ _ Hnone). fold conn in Hdrv.
      destruct (fst (fst conn)) as [h'|]; [now exists h'|congruence].
    + rewrite Connect_without_credentials in HP by exact Hk. discriminate.
  - rewrite (Ping_alive s h Hh Hp) in HP. injection HP as <-. now exists h.
Qed.

Lemma FindOne_returns (filter : any) (s : State) (h : MongoClient) (k : Credentials)
  (col : MongoCollection) :
  cl (client s) = Some h -> cr (client s) = Some k -> co (client s) = Some col ->
  result_of (FindOne filter s) <> None.
Proof.
  intros Hh Hk Hco.
  destruct (Ping_returns s h k Hh Hk) as (e & s1 & HP).
  assert (Hco1 : co (client s1) = Some col).
  { pose proof (Ping_frame s) as HF. rewrite HP in HF. simpl in HF.
    destruct HF as (_ & _ & HF & _). congruence. }
  unfold FindOne. destruct e; ready_ping HP Hco1; discriminate.
Qed.

(** X17. [UpdateOne] and [ReplaceOne] ping twice, the second time inside
    [FindOne].  With a driver whose connect never comes back with neither an
    error nor a handle, they too return on a client with a handle,
    credentials and a collection, whatever else the driver answers. *)
Theorem ready_client_update_does_not_panic (s : State) (h : MongoClient)
  (k : Credentials) (col : MongoCollection) (filter : any) :
  (forall uri w,
     snd (fst (mongo_Connect uri w)) = None -> fst (fst (mongo_Connect uri w)) <> None) ->
  cl (client s) = Some h ->
  cr (client s) = Some k ->
  co (client s) = Some col ->
  (forall update options,
     result_of (UpdateOne filter update options s) <> None) /\
  (forall replacement options,
     result_of (ReplaceOne filter replacement options s) <> None).
Proof.
  intros Hdrv Hh Hk Hco.
  destruct (Ping_returns s h k Hh Hk) as (e & s1 & HP).
  pose proof (Ping_frame s) as HF. rewrite HP in HF. simpl in HF.
  destruct HF as (Hk1 & _ & Hco1 & _). rewrite Hk in Hk1. rewrite Hco in Hco1.
  split.
  - intros update options. unfold UpdateOne. destruct e; ready_ping HP Hco1;
      [discriminate|].
    destruct (Ping_leaves_handle s s1 h Hdrv Hh HP) as [h' Hh1].
    destruct (snd (fst (collection_UpdateOne col filter update options (world s1)))).
    + unfold this, deref, bind; simpl. rewrite Hco1. simpl.
      destruct (snd (fst (collection_UpdateOne col filter update options _)));
        [discriminate|].
      now apply (FindOne_returns filter _ h' k col).
    + now apply (FindOne_returns filter _ h' k col).
  - intros replacement options. unfold ReplaceOne. destruct e; ready_ping HP Hco1;
      [discriminate|].
    destruct (Ping_leaves_handle s s1 h Hdrv Hh HP) as [h' Hh1].
    destruct (snd (fst (collection_ReplaceOne col filter replacement options (world s1)))).
    + unfold this, deref, bind; simpl. rewrite Hco1. simpl.
      destruct (snd (fst (collection_ReplaceOne col filter replacement options _)));
        [discriminate|].
      now apply (FindOne_returns filter _ h' k col).
    + now apply (FindOne_returns filter _ h' k col).
Qed.
End Lifecycle.

(** ** Runs against the scripted driver *)

Import Script.


Lemma Connect_overwrites_handle_witness :
  cr (client (start ready [false])) = Some {| username := "u"; password := "p" |} /\
  cl (client (start ready [false])) = Some "mongodb+srv://u:p@h/test" /\
  result_of (Connect (start ready [false])) = Some (Some (driver_error "connect")) /\
  cl (client (state_of (Connect (start ready [false])))) = None /\
  cl (client (state_of (Ping (start ready [false; false])))) = None.
Proof.
  split; [reflexivity|]. split; [reflexivity|].
  pose proof (Connect_overwrites_handle (start ready [false]) _ eq_refl) as H.
  pose proof (Connect_overwrites_handle (start ready [false; false]) _ eq_refl) as H'.
  cbv zeta in H, H'.
  destruct H as (Hc & He & _). destruct H' as (_ & _ & Hp).
  split; [apply He; reflexivity|]. split.
  - exact (proj1 (Hc _ (He _ eq_refl))).
  - refine (proj2 (Hp "mongodb+srv://u:p@h/test" "connect" eq_refl _ eq_refl)).
    discriminate.
Defined.

Lemma InsertOne_retries_once_witness :
  Ping (start ready [true; false; true]) =
    Returned None (pinged (start ready [true; false; true]) [false; true]) /\
  co (client (start ready [true; false; true])) = Some ("shop", "items") /\
  result_of (InsertOne (doc 7) tt (start ready [true; false; true])) =
    Some (doc 7) /\
  result_of (InsertOne (doc 7) tt (start ready [true; false; false])) =
    Some (any_error (driver_error "insert")) /\
  result_of (InsertOne (doc 7) tt (start ready [false; false])) = Some any_nil.
Proof.
  split; [reflexivity|]. split; [reflexivity|].
  destruct (InsertOne_retries_once (doc 7) tt (start ready [true; false; true]))
    as [_ H].
  destruct (InsertOne_retries_once (doc 7) tt (start ready [true; false; false]))
    as [_ H'].
  destruct (InsertOne_retries_once (doc 7) tt (start ready [false; false]))
    as [H'' _].
  specialize (H _ _ eq_refl eq_refl). specialize (H' _ _ eq_refl eq_refl).
  cbv zeta in H, H'.
  destruct H as (_ & H2 & _). destruct H' as (_ & _ & H3).
  split; [|split].
  - rewrite H2; [reflexivity|discriminate|reflexivity].
  - rewrite (H3 "insert"); [reflexivity|discriminate|reflexivity].
  - rewrite (H'' _ _ eq_refl). reflexivity.
Defined.

Lemma Remove_true_iff_delete_succeeds_witness :
  result_of (RemoveOne (doc 1) tt (start ready [true; false; true])) = Some true /\
  result_of (RemoveMany (doc 1) tt (start ready [true; false; false])) = Some false /\
  result_of (RemoveMany (doc 1) tt (start ready [false; false])) = Some false /\
  RemoveOne (doc 1) tt (start ready [true; false; true]) =
    Returned true
      {| client := ready;
         world := [];
         calls := [CallPing "mongodb+srv://u:p@h/test";
                   CallDeleteOne ("shop", "items") (doc 1) tt;
                   CallDeleteOne ("shop", "items") (doc 1) tt] |}.
Proof.
  assert (HP : Ping (start ready [true; false; true]) =
               Returned None (pinged (start ready [true; false; true]) [false; true]))
    by reflexivity.
  destruct (Remove_true_iff_delete_succeeds (doc 1) tt
              (start ready [true; false; true])) as (H1 & _ & _ & _ & H4).
  destruct (Remove_true_iff_delete_succeeds (doc 1) tt
              (start ready [true; false; false])) as (_ & _ & _ & H2 & _).
  destruct (Remove_true_iff_delete_succeeds (doc 1) tt
              (start ready [false; false])) as (_ & _ & H3 & _).
  split; [|split; [|split]].
  - apply H1. eexists. eexists. split; [reflexivity|]. split; reflexivity.
  - apply (H2 _ _ eq_refl eq_refl). reflexivity.
  - rewrite (proj2 (H3 _ _ eq_refl)). reflexivity.
  - destruct (H4 _ ("shop", "items") HP eq_refl) as [H4' _]. cbv zeta in H4'.
    destruct H4' as (_ & H4' & _).
    rewrite H4'; [reflexivity|discriminate|reflexivity].
Defined.

Lemma Update_Replace_return_FindOne_witness :
  Ping (start ready [true; false; true]) =
    Returned None (pinged (start ready [true; false; true]) [false; true]) /\
  co (client (start ready [true; false; true])) = Some ("shop", "items") /\
  UpdateOne (doc 1) (doc 2) tt (start ready [true; false; true]) =
    FindOne (doc 1)
      {| client := ready;
         world := [];
         calls := [CallPing "mongodb+srv://u:p@h/test";
                   CallUpdateOne ("shop", "items") (doc 1) (doc 2) tt;
                   CallUpdateOne ("shop", "items") (doc 1) (doc 2) tt] |} /\
  result_of (UpdateOne (doc 1) (doc 2) tt (start ready [true; false; true])) =
    Some (Some true) /\
  result_of (FindOne (doc 1)
               (state_of (UpdateOne (doc 1) (doc 2) tt (start ready [true; false; true])))) =
    result_of (UpdateOne (doc 1) (doc 2) tt (start ready [true; false; true])) /\
  result_of (ReplaceOne (doc 1) (doc 2) tt (start ready [true; true])) =
    Some (Some true).
Proof.
  assert (HP : Ping (start ready [true; false; true]) =
               Returned None (pinged (start ready [true; false; true]) [false; true]))
    by reflexivity.
  assert (HP' : Ping (start ready [true; true]) =
                Returned None (pinged (start ready [true; true]) [true]))
    by reflexivity.
  split; [exact HP|]. split; [reflexivity|].
  destruct (Update_Replace_return_FindOne (doc 1) _ _ ("shop", "items") HP eq_refl)
    as [HU _].
  destruct (Update_Replace_return_FindOne (doc 1) _ _ ("shop", "items") HP' eq_refl)
    as [_ HR].
  specialize (HU (doc 2) tt). specialize (HR (doc 2) tt).
  cbv zeta in HU, HR.
  destruct HU as [_ HU]. destruct HR as [HR _].
  destruct HU as [HU HL]; [discriminate|reflexivity|].
  destruct HR as [HR HL']; [reflexivity|].
  assert (Hst : reads_are_stable ("shop", "items") (doc 1)
                  (logged
                     (logged (pinged (start ready [true; false; true]) [false; true])
                        (CallUpdateOne ("shop", "items") (doc 1) (doc 2) tt) [true])
                     (CallUpdateOne ("shop", "items") (doc 1) (doc 2) tt) [])).
  { exists "mongodb+srv://u:p@h/test". repeat split. }
  destruct (HL Hst) as [Hv Hl].
  split; [exact HU|]. split; [exact Hv|]. split; [exact Hl|].
  assert (Hst' : reads_are_stable ("shop", "items") (doc 1)
                   (logged (pinged (start ready [true; true]) [true])
                      (CallReplaceOne ("shop", "items") (doc 1) (doc 2) tt) [])).
  { exists "mongodb+srv://u:p@h/test". repeat split. }
  exact (proj1 (HL' Hst')).
Defined.

(** C5, as stated, does not hold for a [FindOne] the caller makes after
    the method has returned.  With a driver that answers the next query
    differently, [UpdateOne] returns one result and the [FindOne] after it
    another; with one whose next probe and reconnect fail, [ReplaceOne]
    returns a result and the [FindOne] after it nil. *)
Lemma Update_differs_from_later_FindOne :
  result_of (UpdateOne (doc 1) (doc 2) tt
               (start ready [true; true; true; true; true; false])) =
    Some (Some true) /\
  result_of (FindOne (doc 1)
               (state_of (UpdateOne (doc 1) (doc 2) tt
                            (start ready [true; true; true; true; true; false])))) =
    Some (Some false) /\
  result_of (ReplaceOne (doc 1) (doc 2) tt
               (start ready [true; true; true; true; false; false])) =
    Some (Some true) /\
  result_of (FindOne (doc 1)
               (state_of (ReplaceOne (doc 1) (doc 2) tt
                            (start ready [true; true; true; true; false; false])))) =
    Some None /\
  result_of (FindOne (doc 1)
               (state_of (UpdateOne (doc 1) (doc 2) tt
                            (start ready [true; true; true; true; true; false])))) <>
    result_of (UpdateOne (doc 1) (doc 2) tt
                 (start ready [true; true; true; true; true; false])).
Proof.
  split; [reflexivity|]. split; [reflexivity|]. split; [reflexivity|].
  split; [reflexivity|]. discriminate.
Defined.

Lemma InsertMany_UpdateMany_return_nil_witness :
  cl (client (start ready [false; false])) = Some "mongodb+srv://u:p@h/test" /\
  cr (client (start ready [false; false])) = Some {| username := "u"; password := "p" |} /\
  result_of (InsertMany [doc 1; doc 2] tt (start ready [false; false])) =
    Some any_nil /\
  result_of (UpdateMany (doc 1) (doc 2) tt (start ready [false; false])) =
    Some any_nil.
Proof.
  split; [reflexivity|]. split; [reflexivity|].
  destruct (InsertMany_UpdateMany_return_nil [doc 1; doc 2] tt
              (doc 1) (doc 2) tt (start ready [false; false]))
    as (_ & _ & _ & _ & _ & _ & H).
  exact (H _ _ eq_refl eq_refl).
Defined.

Lemma crud_without_collection_panics_witness :
  co (client (start no_collection [])) = None /\
  Ping (start no_collection []) = Returned None (pinged (start no_collection []) []) /\
  FindOne (doc 1) (start no_collection []) = Panicked (pinged (start no_collection []) []) /\
  RemoveOne (doc 1) tt (start no_collection []) =
    Panicked (pinged (start no_collection []) []).
Proof.
  assert (HP : Ping (start no_collection []) =
               Returned None (pinged (start no_collection []) [])) by reflexivity.
  split; [reflexivity|]. split; [exact HP|].
  destruct (crud_without_collection_panics (start no_collection []) _ eq_refl HP)
    as (HF & _ & _ & _ & HR & _).
  split; [apply HF|apply HR].
Defined.

Lemma SetCollection_needs_database_witness :
  forallb (fun o => negb (is_SetDatabase o)) [OpConnect; OpPing; OpSetCollection "users"]
    = true /\
  result_of
    (SetCollection "items"
       (state_of (run_ops [OpConnect; OpPing; OpSetCollection "users"]
                    (start unconnected [])))) =
    Some (false, Some (errors_New "please set a database before setting a collection")) /\
  co (client
        (state_of
           (SetCollection "items"
              (state_of (run_ops [OpConnect; OpPing; OpSetCollection "users"]
                           (start unconnected [])))))) = None.
Proof.
  split; [reflexivity|].
  destruct (SetCollection_needs_database "items") as (_ & _ & H).
  specialize (H "u" "p" "@cluster0.example.net/test" []
                [OpConnect; OpPing; OpSetCollection "users"] eq_refl).
  cbv zeta in H. destruct H as (_ & _ & Hr & Hc).
  split; [exact Hr|exact Hc].
Defined.

Lemma SetDatabase_changes_only_database_witness :
  cl (client (start ready [])) = Some "mongodb+srv://u:p@h/test" /\
  result_of (SetDatabase "archive" (start ready [])) = Some tt /\
  db (client (state_of (SetDatabase "archive" (start ready [])))) = Some "archive" /\
  co (client (state_of (SetDatabase "archive" (start ready [])))) = Some ("shop", "items").
Proof.
  split; [reflexivity|].
  destruct (SetDatabase_changes_only_database "archive" (start ready []) _ eq_refl)
    as (Hr & Hf & _).
  cbv zeta in Hf. destruct Hf as (Hd & Hc & _).
  split; [now rewrite Hr|]. split; [exact Hd|exact Hc].
Defined.

(** C9, as stated, does not hold: on a client that [NewClient] built and
    that never connected, the handle is nil and [SetDatabase] panics. *)
Lemma SetDatabase_fails_without_handle :
  SetDatabase "shop" (start unconnected []) = Panicked (start unconnected []) /\
  ~ (forall db_name s, exists s', SetDatabase db_name s = Returned tt s').
Proof.
  split; [reflexivity|].
  intros H. destruct (H "shop" (start unconnected [])) as [s' Hs']. discriminate Hs'.
Defined.

(** *** Further runs *)

Lemma only_Disconnect_disconnects_witness :
  forallb (fun o => negb (is_Disconnect o)) [OpConnect; OpPing; OpConnect] = true /\
  forallb (fun ev => negb (is_disconnect ev))
    (emitted (run_ops [OpConnect; OpPing; OpConnect]) (start unconnected [true; false]))
    = true.
Proof.
  split; [reflexivity|]. apply only_Disconnect_disconnects. reflexivity.
Defined.

Lemma reads_never_write_witness :
  forallb (fun o => negb (mutates o))
    [OpConnect; OpSetDatabase "shop"; OpSetCollection "items"; OpFindOne (doc 1);
     OpInsertMany [doc 1; doc 2] tt; OpUpdateMany (doc 1) (doc 2) tt] = true /\
  forallb (fun ev => negb (is_mutation ev))
    (emitted
       (run_ops [OpConnect; OpSetDatabase "shop"; OpSetCollection "items";
                 OpFindOne (doc 1); OpInsertMany [doc 1; doc 2] tt;
                 OpUpdateMany (doc 1) (doc 2) tt])
       (start unconnected [])) = true.
Proof.
  split; [reflexivity|]. apply reads_never_write. reflexivity.
Defined.

Lemma collection_implies_database_witness :
  (co (client (start unconnected [])) <> None ->
   db (client (start unconnected [])) <> None) /\
  co (client (state_of
                (run_ops [OpConnect; OpSetDatabase "shop"; OpSetCollection "items"]
                   (start unconnected [])))) <> None /\
  db (client (state_of
                (run_ops [OpConnect; OpSetDatabase "shop"; OpSetCollection "items"]
                   (start unconnected [])))) <> None.
Proof.
  assert (H0 : co (client (start unconnected [])) <> None ->
               db (client (start unconnected [])) <> None)
    by (intros H; exfalso; apply H; reflexivity).
  split; [exact H0|]. split; [discriminate|].
  apply (collection_implies_database _ _ H0). discriminate.
Defined.

Lemma only_selection_changes_selection_witness :
  forallb (fun o => negb (is_selection o))
    [OpPing; OpRemoveOne (doc 1) tt; OpConnect; OpDisconnect] = true /\
  db (client (state_of
                (run_ops [OpPing; OpRemoveOne (doc 1) tt; OpConnect; OpDisconnect]
                   (start ready [false; true; false; false])))) = Some "shop" /\
  co (client (state_of
                (run_ops [OpPing; OpRemoveOne (doc 1) tt; OpConnect; OpDisconnect]
                   (start ready [false; true; false; false])))) = Some ("shop", "items").
Proof.
  split; [reflexivity|].
  exact (only_selection_changes_selection
           [OpPing; OpRemoveOne (doc 1) tt; OpConnect; OpDisconnect]
           (start ready [false; true; false; false]) eq_refl).
Defined.

Lemma handle_changes_only_on_connect_witness :
  forallb (fun ev => negb (is_connect ev))
    (emitted (run_ops [OpDisconnect; OpFindOne (doc 1); OpSetDatabase "archive"])
       (start ready [])) = true /\
  cl (client (state_of
                (run_ops [OpDisconnect; OpFindOne (doc 1); OpSetDatabase "archive"]
                   (start ready [])))) = Some "mongodb+srv://u:p@h/test".
Proof.
  split; [reflexivity|].
  exact (handle_changes_only_on_connect
           [OpDisconnect; OpFindOne (doc 1); OpSetDatabase "archive"]
           (start ready []) eq_refl).
Defined.

Lemma Disconnect_keeps_handle_witness :
  cl (client (start ready [false])) = Some "mongodb+srv://u:p@h/test" /\
  result_of (Disconnect (start ready [false])) =
    Some (false, Some (driver_error "disconnect")) /\
  client (state_of (Disconnect (start ready [false]))) = ready /\
  result_of (Disconnect (start ready [true])) = Some (true, None).
Proof.
  split; [reflexivity|].
  destruct (Disconnect_keeps_handle (start ready [false]) _ eq_refl)
    as (_ & Hc & _ & He & _).
  destruct (Disconnect_keeps_handle (start ready [true]) _ eq_refl)
    as (_ & _ & Hn & _).
  split; [exact (He _ eq_refl)|]. split; [exact Hc|exact (Hn eq_refl)].
Defined.

Lemma nil_handle_panics_witness :
  needs_handle (OpFindOne (doc 1)) = true /\
  cl (client (start unconnected [])) = None /\
  run_op (OpFindOne (doc 1)) (start unconnected []) = Panicked (start unconnected []).
Proof.
  split; [reflexivity|]. split; [reflexivity|].
  destruct (nil_handle_panics (OpFindOne (doc 1)) eq_refl) as [H _].
  exact (proj1 (H (start unconnected []) eq_refl)).
Defined.

Lemma failed_reconnect_disables_client_witness :
  cl (client (start ready [false; false])) = Some "mongodb+srv://u:p@h/test" /\
  result_of (Ping (start ready [false; false])) = Some (Some (driver_error "connect")) /\
  cl (client (state_of (Ping (start ready [false; false])))) = None /\
  run_op OpPing (state_of (Ping (start ready [false; false]))) =
    Panicked (state_of (Ping (start ready [false; false]))).
Proof.
  split; [reflexivity|].
  assert (Hp : fst (client_Ping "mongodb+srv://u:p@h/test"
                      (world (start ready [false; false]))) <> None) by discriminate.
  destruct (failed_reconnect_disables_client (start ready [false; false])
              "mongodb+srv://u:p@h/test" {| username := "u"; password := "p" |}
              "connect" eq_refl eq_refl Hp eq_refl) as (Hr & Hn & Ho).
  split; [exact Hr|]. split; [exact Hn|]. exact (Ho OpPing eq_refl).
Defined.

Lemma crud_goes_to_selected_collection_witness :
  co (client (start ready [])) = Some ("shop", "items") /\
  co (client (state_of
                (run_ops [OpInsertOne (doc 1) tt; OpSetDatabase "archive";
                          OpFindOne (doc 1)]
                   (start ready [])))) = Some ("shop", "items") /\
  Forall (targets ("shop", "items"))
    (emitted (run_ops [OpInsertOne (doc 1) tt; OpSetDatabase "archive";
                       OpFindOne (doc 1)])
       (start ready [])).
Proof.
  split; [reflexivity|].
  exact (crud_goes_to_selected_collection ("shop", "items")
           [OpInsertOne (doc 1) tt; OpSetDatabase "archive"; OpFindOne (doc 1)]
           (start ready []) eq_refl eq_refl).
Defined.

Lemma connect_then_select_witness :
  fst (fst (mongo_Connect "mongodb+srv://u:p@cluster0.example.net/test" []))
    = Some "mongodb+srv://u:p@cluster0.example.net/test" /\
  result_of
    (run_ops [OpConnect; OpSetDatabase "shop"; OpSetCollection "items"]
       (start unconnected [])) = Some tt /\
  co (client (state_of
                (run_ops [OpConnect; OpSetDatabase "shop"; OpSetCollection "items"]
                   (start unconnected [])))) = Some ("shop", "items").
Proof.
  split; [reflexivity|].
  pose proof (connect_then_select "u" "p" "@cluster0.example.net/test" "shop" "items" []
                "mongodb+srv://u:p@cluster0.example.net/test" eq_refl) as H.
  unfold unconnected. rewrite H. split; reflexivity.
Defined.

Lemma ready_client_does_not_panic_witness :
  cl (client (start ready [false; true; false; false])) = Some "mongodb+srv://u:p@h/test" /\
  co (client (start ready [false; true; false; false])) = Some ("shop", "items") /\
  pings_once (OpRemoveOne (doc 1) tt) = true /\
  result_of (run_op (OpRemoveOne (doc 1) tt) (start ready [false; true; false; false]))
    = Some tt.
Proof.
  split; [reflexivity|]. split; [reflexivity|]. split; [reflexivity|].
  exact (ready_client_does_not_panic (start ready [false; true; false; false])
           "mongodb+srv://u:p@h/test" {| username := "u"; password := "p" |}
           ("shop", "items") (OpRemoveOne (doc 1) tt) eq_refl eq_refl eq_refl eq_refl).
Defined.

Lemma scripted_connect_gives_handle (uri : string) (w : list bool) :
  snd (fst (mongo_Connect uri w)) = None -> fst (fst (mongo_Connect uri w)) <> None.
Proof.
  destruct w as [|[|] w]; simpl; intros H; try discriminate H; discriminate.
Defined.

Lemma ready_client_update_does_not_panic_witness :
  cl (client (start ready [false; true; false; true; false; true]))
    = Some "mongodb+srv://u:p@h/test" /\
  result_of (UpdateOne (doc 1) (doc 2) tt
               (start ready [false; true; false; true; false; true])) <> None.
Proof.
  split; [reflexivity|].
  destruct (ready_client_update_does_not_panic
              (start ready [false; true; false; true; false; true])
              "mongodb+srv://u:p@h/test" {| username := "u"; password := "p" |}
              ("shop", "items") (doc 1)
              scripted_connect_gives_handle eq_refl eq_refl eq_refl) as [HU _].
  apply HU.
Defined.

Lemma Update_Replace_nil_is_ambiguous_witness :
  result_of (UpdateOne (doc 1) (doc 2) tt (start ready [true; true; false; false]))
    = Some None /\
  result_of (UpdateOne (doc 1) (doc 2) tt (start ready [true; false; false]))
    = Some None /\
  result_of (ReplaceOne (doc 1) (doc 2) tt (start ready [false; false]))
    = Some None.
Proof.
  assert (HP : Ping (start ready [true; true; false; false]) =
               Returned None (pinged (start ready [true; true; false; false])
                                [true; false; false])) by reflexivity.
  assert (HP' : Ping (start ready [true; false; false]) =
                Returned None (pinged (start ready [true; false; false])
                                 [false; false])) by reflexivity.
  destruct (Update_Replace_nil_is_ambiguous (doc 1)
              (start ready [true; true; false; false])) as (_ & H & _).
  destruct (Update_Replace_nil_is_ambiguous (doc 1)
              (start ready [true; false; false])) as (_ & H' & _).
  destruct (Update_Replace_nil_is_ambiguous (doc 1)
              (start ready [false; false])) as (H'' & _).
  specialize (H _ ("shop", "items") (doc 2) tt HP eq_refl).
  specialize (H' _ ("shop", "items") (doc 2) tt HP' eq_refl).
  cbv zeta in H, H'.
  destruct H as (_ & H & _). destruct H' as (H' & _).
  split; [|split].
  - erewrite H; [reflexivity|reflexivity|reflexivity].
  - rewrite H'; [reflexivity|discriminate|discriminate].
  - erewrite (proj2 (H'' _ _ (doc 2) tt (doc 2) tt eq_refl)). reflexivity.
Defined.

Lemma Find_asks_once_witness :
  result_of (FindMany (doc 1) tt (start ready [true; false])) = Some None /\
  emitted (FindMany (doc 1) tt) (start ready [true; false]) =
    [CallPing "mongodb+srv://u:p@h/test"; CallFind ("shop", "items") (doc 1) tt] /\
  result_of (FindMany (doc 1) tt (start ready [false; false])) = Some None /\
  result_of (FindOne (doc 1) (start ready [true; true])) = Some (Some true).
Proof.
  assert (HP : Ping (start ready [true; false]) =
               Returned None (pinged (start ready [true; false]) [false]))
    by reflexivity.
  assert (HP' : Ping (start ready [true; true]) =
                Returned None (pinged (start ready [true; true]) [true]))
    by reflexivity.
  destruct (Find_asks_once (doc 1) tt (start ready [true; false])) as (_ & H).
  destruct (Find_asks_once (doc 1) tt (start ready [false; false])) as (H' & _).
  destruct (Find_asks_once (doc 1) tt (start ready [true; true])) as (_ & H'').
  specialize (H _ ("shop", "items") HP eq_refl).
  specialize (H'' _ ("shop", "items") HP' eq_refl).
  cbv zeta in H, H''. destruct H as [_ H]. destruct H'' as [H'' _].
  split; [now rewrite H|]. split.
  - apply emitted_extends. now rewrite H.
  - split; [|now rewrite H''].
    erewrite (proj2 (H' _ _ eq_refl)). reflexivity.
Defined.
